(** * video_upload: registration, login, cached database connection and
    upload-auth endpoint

    A shallow embedding of the TypeScript sources

      - [src/lib/db.ts]                      ([Db.connectDb])
      - [src/app/api/auth/register/route.ts] ([RegisterRoute.POST])
      - [src/app/register/page.tsx]          ([RegisterPage])
      - [src/app/login/page.tsx]             ([LoginPage])
      - the upload-auth route                ([UploadAuth.GET])
      - the two plain form pages             ([PlainLogin], [PlainRegister])

    followed by the properties established about them.  The first half of
    the file holds the model, the second half the lemmas and theorems. *)

From Stdlib Require Import String Ascii List NArith ZArith Bool Lia DecimalString.
Import ListNotations.

Set Implicit Arguments.

(* ===================================================================== *)
(** ** JavaScript values used by the sources *)
(* ===================================================================== *)

Module JS.

(** A JavaScript string is a sequence of UTF-16 code units; [length],
    [trim] and the regular expressions of the sources (none carries the
    [u] flag) all work on code units. *)
Definition char16 := N.
Definition jsstring := list char16.

(** String literals of the sources (all ASCII). *)
Definition js (s : string) : jsstring :=
  map N_of_ascii (list_ascii_of_string s).

Definition chr (a : ascii) : char16 := N_of_ascii a.

Fixpoint str_eqb (a b : jsstring) : bool :=
  match a, b with
  | [], [] => true
  | x :: a', y :: b' => N.eqb x y && str_eqb a' b'
  | _, _ => false
  end.

(** [ToBoolean] on a string: only the empty string is falsy. *)
Definition truthy (s : jsstring) : bool :=
  match s with [] => false | _ :: _ => true end.

(** [ToBoolean] on [string | undefined | null]. *)
Definition truthy_opt (o : option jsstring) : bool :=
  match o with None => false | Some s => truthy s end.

(** [a || b] where [a : string | undefined]. *)
Definition or_else (o : option jsstring) (d : jsstring) : jsstring :=
  match o with
  | Some s => if truthy s then s else d
  | None => d
  end.

Local Open Scope N_scope.

Definition in_range (lo hi c : char16) : bool :=
  N.leb lo c && N.leb c hi.

(** The class [\s], which is also the set [String.prototype.trim] strips:
    WhiteSpace and LineTerminator code points. *)
Definition is_space (c : char16) : bool :=
  in_range 9 13 c || N.eqb c 32 || N.eqb c 160 || N.eqb c 5760
  || in_range 8192 8202 c || N.eqb c 8232 || N.eqb c 8233
  || N.eqb c 8239 || N.eqb c 8287 || N.eqb c 12288 || N.eqb c 65279.

(** LineTerminator: what [.] does not match. *)
Definition is_line_terminator (c : char16) : bool :=
  N.eqb c 10 || N.eqb c 13 || N.eqb c 8232 || N.eqb c 8233.

Definition is_lower (c : char16) : bool := in_range 97 122 c.   (* [a-z] *)
Definition is_upper (c : char16) : bool := in_range 65 90 c.    (* [A-Z] *)
Definition is_digit (c : char16) : bool := in_range 48 57 c.    (* [0-9], \d *)
Definition is_alnum (c : char16) : bool :=
  is_upper c || is_lower c || is_digit c.                        (* [A-Za-z0-9] *)
Definition any_char (c : char16) : bool := negb (is_line_terminator c).  (* . *)

Local Close Scope N_scope.

Fixpoint trimStart (s : jsstring) : jsstring :=
  match s with
  | [] => []
  | c :: s' => if is_space c then trimStart s' else s
  end.

Definition trimEnd (s : jsstring) : jsstring := rev (trimStart (rev s)).

Definition trim (s : jsstring) : jsstring := trimEnd (trimStart s).

(** *** Regular expressions

    The fragment used by the sources: character classes, concatenation,
    [*] and [+].  Matching is by Brzozowski derivatives; [Void] and [Alt]
    only arise as derivatives. *)
Inductive regex : Type :=
| Void : regex
| Eps : regex
| Cls (p : char16 -> bool) : regex
| Cat (r1 r2 : regex) : regex
| Alt (r1 r2 : regex) : regex
| Star (r : regex) : regex.

Definition Plus (r : regex) : regex := Cat r (Star r).

Fixpoint nullable (r : regex) : bool :=
  match r with
  | Void => false
  | Eps => true
  | Cls _ => false
  | Cat r1 r2 => nullable r1 && nullable r2
  | Alt r1 r2 => nullable r1 || nullable r2
  | Star _ => true
  end.

Fixpoint deriv (c : char16) (r : regex) : regex :=
  match r with
  | Void => Void
  | Eps => Void
  | Cls p => if p c then Eps else Void
  | Cat r1 r2 =>
      if nullable r1
      then Alt (Cat (deriv c r1) r2) (deriv c r2)
      else Cat (deriv c r1) r2
  | Alt r1 r2 => Alt (deriv c r1) (deriv c r2)
  | Star r1 => Cat (deriv c r1) (Star r1)
  end.

(** [/^r$/.test(s)]: the whole string matches [r]. *)
Fixpoint test_anchored (r : regex) (s : jsstring) : bool :=
  match s with
  | [] => nullable r
  | c :: s' => test_anchored (deriv c r) s'
  end.

(** [r] matches some prefix of [s]. *)
Fixpoint matches_at_start (r : regex) (s : jsstring) : bool :=
  nullable r ||
  match s with
  | [] => false
  | c :: s' => matches_at_start (deriv c r) s'
  end.

(** [/r/.test(s)]: [r] matches at some position of [s]. *)
Fixpoint test (r : regex) (s : jsstring) : bool :=
  matches_at_start r s ||
  match s with
  | [] => false
  | _ :: s' => test r s'
  end.

(** [/(?=r)/.test(s)]: the lookahead consumes nothing, so the test succeeds
    exactly when [r] matches at some position. *)
Definition test_lookahead (r : regex) (s : jsstring) : bool := test r s.

(** The language of a regular expression, as a relation. *)
Inductive matches : regex -> jsstring -> Prop :=
| MEps : matches Eps []
| MCls p c : p c = true -> matches (Cls p) [c]
| MCat r1 r2 s1 s2 :
    matches r1 s1 -> matches r2 s2 -> matches (Cat r1 r2) (s1 ++ s2)
| MAltL r1 r2 s : matches r1 s -> matches (Alt r1 r2) s
| MAltR r1 r2 s : matches r2 s -> matches (Alt r1 r2) s
| MStarNil r : matches (Star r) []
| MStarApp r s1 s2 :
    matches r s1 -> matches (Star r) s2 -> matches (Star r) (s1 ++ s2).

(** Values a [catch] clause can receive. *)
Inductive Thrown : Type :=
| ErrorObject (message : jsstring)    (* [error instanceof Error] *)
| NonError.

(** Result of awaiting a call that may throw or reject. *)
Inductive outcome (A : Type) : Type :=
| Ok (a : A)
| Throw (e : Thrown).
Arguments Throw {A} e.

End JS.
Import JS.

(* ===================================================================== *)
(** ** Server side: process state and the monad of route handlers *)
(* ===================================================================== *)

Module Server.

(** [mongoose.connection], the handle the connection promise resolves to. *)
Inductive Connection : Type := MongooseConnection.

(** A promise as [await] observes it: it settles to a value or rejects. *)
Inductive Promise : Type :=
| Fulfilled (c : Connection)
| Rejected (e : Thrown).

(** [global.mongoose]: [{ conn, promise }], either may be [null]. *)
Record Cache : Type := mkCache {
  conn : option Connection;
  promise : option Promise
}.

(** A document of the users collection. *)
Record UserDoc : Type := mkUser {
  email : jsstring;
  password : jsstring
}.

(** Calls that leave the process. *)
Inductive Effect : Type :=
| MongooseConnect (uri : jsstring)     (* mongoose.connect(uri) *)
| FindOne (email : jsstring)           (* User.findOne({ email }) *)
| Create (doc : UserDoc).              (* User.create(doc) *)

Record World : Type := mkWorld {
  MONGODB_URI : jsstring;
  cached : Cache;
  users : list UserDoc;
  effects : list Effect        (* oldest first *)
}.

(** An [async] function body: it reads and updates the world and either
    returns or throws. *)
Definition M (A : Type) : Type := World -> outcome A * World.

Definition ret {A} (a : A) : M A := fun w => (Ok a, w).

Definition throw {A} (e : Thrown) : M A := fun w => (Throw e, w).

Definition bind {A B} (c : M A) (k : A -> M B) : M B :=
  fun w =>
    match c w with
    | (Ok a, w') => k a w'
    | (Throw e, w') => (Throw e, w')
    end.

(** [try { c } catch (error) { h error }] *)
Definition try_catch {A} (c : M A) (h : Thrown -> M A) : M A :=
  fun w =>
    match c w with
    | (Ok a, w') => (Ok a, w')
    | (Throw e, w') => h e w'
    end.

(** [await] on an already evaluated call. *)
Definition await {A} (o : outcome A) : M A := fun w => (o, w).

Definition get_cached : M Cache := fun w => (Ok (cached w), w).

Definition set_conn (c : option Connection) : M unit :=
  fun w =>
    (Ok tt, mkWorld (MONGODB_URI w) (mkCache c (promise (cached w)))
                    (users w) (effects w)).

Definition set_promise (p : option Promise) : M unit :=
  fun w =>
    (Ok tt, mkWorld (MONGODB_URI w) (mkCache (conn (cached w)) p)
                    (users w) (effects w)).

Definition emit (e : Effect) : M unit :=
  fun w =>
    (Ok tt, mkWorld (MONGODB_URI w) (cached w) (users w) (effects w ++ [e])).

Definition get_uri : M jsstring := fun w => (Ok (MONGODB_URI w), w).

Declare Scope js_scope.
Delimit Scope js_scope with js.
Notation "x <- c ;; k" := (bind c (fun x => k))
  (at level 61, c at next level, right associativity) : js_scope.
Notation "c ;;; k" := (bind c (fun _ => k))
  (at level 61, right associativity) : js_scope.

End Server.

(* ===================================================================== *)
(** ** src/lib/db.ts *)
(* ===================================================================== *)

Module Db.
Import Server.
Local Open Scope js_scope.

(** The cache as the module leaves it after loading when [global.mongoose]
    was not set: [{ conn: null, promise: null }]. *)
Definition initial_cache : Cache := mkCache None None.

(** [await cached.promise]: awaiting [null] yields [null]. *)
Definition await_promise (p : option Promise) : M (option Connection) :=
  match p with
  | None => ret None
  | Some (Fulfilled c) => ret (Some c)
  | Some (Rejected e) => throw e
  end.

(** [connectDb].  The promise that [mongoose.connect(...).then(...)] builds
    is not assigned to anything: the call is an effect only. *)
Definition connectDb : M (option Connection) :=
  cached0 <- get_cached ;;
  match conn cached0 with
  | Some c => ret (Some c)
  | None =>
      (match promise cached0 with
       | None => uri <- get_uri ;; emit (MongooseConnect uri)
       | Some _ => ret tt
       end) ;;;
      try_catch
        (cached1 <- get_cached ;;
         c <- await_promise (promise cached1) ;;
         set_conn c)
        (fun error => set_promise None ;;; throw error) ;;;
      cached2 <- get_cached ;;
      ret (conn cached2)
  end.

(** The error a call of [connectDb] throws in a given cache state, if any:
    no cached connection and a cached promise that rejects. *)
Definition rejects (c : Cache) : option Thrown :=
  match conn c, promise c with
  | None, Some (Rejected e) => Some e
  | _, _ => None
  end.

(** Number of connection attempts recorded in an effect list. *)
Definition connect_attempts (l : list Effect) : nat :=
  length (filter (fun e => match e with MongooseConnect _ => true | _ => false end) l).

End Db.

(* ===================================================================== *)
(** ** src/app/api/auth/register/route.ts *)
(* ===================================================================== *)

Module RegisterRoute.
Import Server.
Local Open Scope js_scope.

(** The destructured request body: a field that is absent (or [null]) is
    [None]. *)
Record Body : Type := mkBody {
  body_email : option jsstring;
  body_password : option jsstring
}.

(** The JSON object passed to [NextResponse.json]. *)
Inductive Payload : Type :=
| ErrorPayload (error : jsstring)         (* { error: ... } *)
| MessagePayload (message : jsstring).    (* { message: ... } *)

Record Response : Type := mkResponse {
  payload : Payload;
  status : Z
}.

(** How the database answers during one request: each of the two model
    calls either completes or throws. *)
Record Faults : Type := mkFaults {
  findOne_throws : option Thrown;
  create_throws : option Thrown
}.

Definition no_faults : Faults := mkFaults None None.

Definition has_email (e : jsstring) (u : UserDoc) : bool := str_eqb (email u) e.

(** Modelled from the spec: the [User] model of [src/app/models/User] is not
    among the sources; "a duplicate-email check" looks a record up by its
    email in the users collection. *)
Definition User_findOne (f : Faults) (e : jsstring) : M (option UserDoc) :=
  emit (FindOne e) ;;;
  match findOne_throws f with
  | Some err => throw err
  | None => fun w => (Ok (find (has_email e) (users w)), w)
  end.

(** Modelled from the spec: the [User] model of [src/app/models/User] is not
    among the sources; the route "persists a new user record into a MongoDB
    collection via an ORM". *)
Definition User_create (f : Faults) (doc : UserDoc) : M UserDoc :=
  emit (Create doc) ;;;
  match create_throws f with
  | Some err => throw err
  | None =>
      fun w =>
        (Ok doc, mkWorld (MONGODB_URI w) (cached w) (users w ++ [doc]) (effects w))
  end.

Definition json (p : Payload) (st : Z) : M Response := ret (mkResponse p st).

(** [POST].  [request] is the result of [await request.json()] followed by
    the destructuring of [email] and [password]; it throws on a malformed
    body. *)
Definition POST (f : Faults) (request : outcome Body) : M Response :=
  try_catch
    (b <- await request ;;
     match body_email b, body_password b with
     | Some email, Some password =>
         if negb (truthy email) || negb (truthy password)
         then json (ErrorPayload (js "Email and passowrd are required")) 400
         else
           Db.connectDb ;;;
           isExist <- User_findOne f email ;;
           match isExist with
           | Some _ => json (ErrorPayload (js "User already registered")) 400
           | None =>
               user <- User_create f (mkUser email password) ;;
               json (MessagePayload (js "User  registered successfully")) 201
           end
     | _, _ => json (ErrorPayload (js "Email and passowrd are required")) 400
     end)
    (fun error => json (ErrorPayload (js "Failed to register user")) 400).

(** The four responses of the route. *)
Definition missing_fields : Response :=
  mkResponse (ErrorPayload (js "Email and passowrd are required")) 400.
Definition already_registered : Response :=
  mkResponse (ErrorPayload (js "User already registered")) 400.
Definition registered : Response :=
  mkResponse (MessagePayload (js "User  registered successfully")) 201.
Definition failed : Response :=
  mkResponse (ErrorPayload (js "Failed to register user")) 400.

(** A body carrying both fields. *)
Definition credentials (e p : jsstring) : outcome Body :=
  Ok (mkBody (Some e) (Some p)).

(** [w] with further effects recorded. *)
Definition logged (l : list Effect) (w : World) : World :=
  mkWorld (MONGODB_URI w) (cached w) (users w) (effects w ++ l).

(** [w] with one more user document. *)
Definition stored (doc : UserDoc) (w : World) : World :=
  mkWorld (MONGODB_URI w) (cached w) (users w ++ [doc]) (effects w).

Definition is_none {A} (o : option A) : bool :=
  match o with None => true | Some _ => false end.

(** The inputs on which a registration goes through: both fields are
    present and non-empty, no call throws and no record has the email. *)
Definition succeeds (f : Faults) (request : outcome Body) (w : World) : bool :=
  match request with
  | Ok b =>
      match body_email b, body_password b with
      | Some e, Some p =>
          truthy e && truthy p
          && is_none (Db.rejects (cached w))
          && is_none (findOne_throws f)
          && is_none (find (has_email e) (users w))
          && is_none (create_throws f)
      | _, _ => false
      end
  | Throw _ => false
  end.

(** The failure cases of a request. *)
Inductive Failure (f : Faults) (w : World) : outcome Body -> Prop :=
| MalformedBody err : Failure f w (Throw err)
| MissingEmail b :
    truthy_opt (body_email b) = false -> Failure f w (Ok b)
| MissingPassword b :
    truthy_opt (body_password b) = false -> Failure f w (Ok b)
| DuplicateEmail e p u :
    find (has_email e) (users w) = Some u -> Failure f w (credentials e p)
| ConnectionError b err :
    Db.rejects (cached w) = Some err -> Failure f w (Ok b)
| LookupError b err :
    findOne_throws f = Some err -> Failure f w (Ok b)
| InsertError b err :
    create_throws f = Some err -> Failure f w (Ok b).

(** The documents handed to [User.create] in an effect list. *)
Definition inserts (l : list Effect) : list UserDoc :=
  flat_map (fun e => match e with Create d => [d] | _ => [] end) l.

End RegisterRoute.

(* ===================================================================== *)
(** ** The upload-auth route ([GET]) *)
(* ===================================================================== *)

Module UploadAuth.

(** What [getUploadAuthParams] returns. *)
Record AuthParams : Type := mkAuthParams {
  token : jsstring;
  expire : Z;
  signature : jsstring
}.

(** The two variables of [process.env] the route reads; a variable that is
    not set is [None]. *)
Record ProcessEnv : Type := mkEnv {
  IMAGEKIT_PRIVATE_KEY : option jsstring;
  NEXT_PUBLIC_PUBLIC_KEY : option jsstring
}.

(** The JSON bodies the route builds. *)
Inductive Body : Type :=
| AuthBody (authentiationParameters : AuthParams) (publicKey : option jsstring)
| ErrorBody (error : jsstring).

Record Response : Type := mkResponse {
  body : Body;
  status : Z
}.

(** The signer of [@imagekit/next/server], called with
    [{ privateKey, publicKey }]; it is a parameter of the route. *)
Definition Signer : Type :=
  option jsstring -> option jsstring -> outcome AuthParams.

(** [GET].  [Response.json] without an init object answers 200. *)
Definition GET (getUploadAuthParams : Signer) (env : ProcessEnv) : Response :=
  match getUploadAuthParams (IMAGEKIT_PRIVATE_KEY env) (NEXT_PUBLIC_PUBLIC_KEY env) with
  | Ok authentiationParameters =>
      mkResponse (AuthBody authentiationParameters (NEXT_PUBLIC_PUBLIC_KEY env)) 200
  | Throw error =>
      mkResponse (ErrorBody (js "Authentication for Image kit failed")) 500
  end.


(** [s.startsWith(k)] *)
Fixpoint startsWith (s k : jsstring) {struct k} : bool :=
  match k, s with
  | [], _ => true
  | x :: k', y :: s' => N.eqb x y && startsWith s' k'
  | _ :: _, [] => false
  end.

(** [s.includes(k)]: [k] occurs somewhere in [s]. *)
Fixpoint includes (s k : jsstring) : bool :=
  startsWith s k ||
  match s with
  | [] => false
  | _ :: s' => includes s' k
  end.




End UploadAuth.

(* ===================================================================== *)
(** ** What a page does to the outside: requests, navigation, dialogs *)
(* ===================================================================== *)

Module Browser.

Inductive Event : Type :=
| Fetch (url method : jsstring) (json_body : list (jsstring * jsstring))
| SignIn (provider : jsstring) (email password : jsstring) (redirect : bool)
| RouterPush (url : jsstring)
| Alert (msg : jsstring)              (* alert of a string literal *)
| AlertError (e : Thrown)            (* alert(error) in a catch clause *)
| ConsoleLog
| ConsoleError.

Definition is_fetch_to (url : jsstring) (e : Event) : bool :=
  match e with
  | Fetch u _ _ => str_eqb u url
  | _ => false
  end.

Definition is_signin (e : Event) : bool :=
  match e with
  | SignIn _ _ _ _ => true
  | _ => false
  end.

Definition is_push_to (url : jsstring) (e : Event) : bool :=
  match e with
  | RouterPush u => str_eqb u url
  | _ => false
  end.

(** A [fetch] response: [ok] is derived from the status as the Fetch
    standard has it; [data] is the result of [await response.json()]. *)
Record FetchResponse (D : Type) : Type := mkFetchResponse {
  resp_status : Z;
  resp_json : outcome D
}.

Definition resp_ok {D} (r : FetchResponse D) : bool :=
  Z.leb 200 (resp_status r) && Z.leb (resp_status r) 299.

(** [error instanceof Error ? error.message : fallback] *)
Definition message_or (e : Thrown) (fallback : jsstring) : jsstring :=
  match e with
  | ErrorObject m => m
  | NonError => fallback
  end.

End Browser.

(* ===================================================================== *)
(** ** Validation rules shared by the form pages *)
(* ===================================================================== *)

Module Rules.

(** [[^\s@]] *)
Definition email_atom (c : char16) : bool :=
  negb (is_space c || N.eqb c (chr "@")).

Definition is_char (a : ascii) (c : char16) : bool := N.eqb c (chr a).

(** [/^[^\s@]+@[^\s@]+\.[^\s@]+$/] without its anchors. *)
Definition email_re : regex :=
  Cat (Plus (Cls email_atom))
      (Cat (Cls (is_char "@"))
           (Cat (Plus (Cls email_atom))
                (Cat (Cls (is_char "."))
                     (Plus (Cls email_atom))))).

(** The members of the class of special characters that the password rule
    of the register page looks for; code unit 34 is the double quote and
    92 the backslash. *)
Definition special_chars : jsstring :=
  js "!@#$%^&*()_+-=[]{};':" ++ [34%N] ++ js "\|,.<>/?".

Definition is_special (c : char16) : bool := existsb (N.eqb c) special_chars.

(** The body [.*[c]] of the lookaheads [(?=.*[c])]. *)
Definition anywhere (p : char16 -> bool) : regex :=
  Cat (Star (Cls any_char)) (Cls p).

(** A string passes the email pattern exactly when it splits as
    [local @ domain . tld] with three non-empty parts free of white space
    and of [@]. *)
Definition email_shape (s : jsstring) : Prop :=
  exists a b c,
    s = a ++ chr "@" :: b ++ chr "." :: c /\
    a <> [] /\ b <> [] /\ c <> [] /\
    forallb email_atom a = true /\
    forallb email_atom b = true /\
    forallb email_atom c = true.

End Rules.

(* ===================================================================== *)
(** ** src/app/register/page.tsx *)
(* ===================================================================== *)

Module RegisterPage.
Import Browser Rules.

Record FormData : Type := mkFormData {
  email : jsstring;
  password : jsstring;
  confirmPassword : jsstring
}.

(** [keyof FormData], in the order of [Object.keys(formData)]. *)
Inductive Field : Type := F_email | F_password | F_confirmPassword.

Definition form_keys : list Field := [F_email; F_password; F_confirmPassword].

Definition get_field (fd : FormData) (k : Field) : jsstring :=
  match k with
  | F_email => email fd
  | F_password => password fd
  | F_confirmPassword => confirmPassword fd
  end.

(** Keys of [ValidationErrors]. *)
Inductive ErrorKey : Type := OfField (k : Field) | E_submit.

(** A [ValidationErrors] object: its own keys, in insertion order. *)
Definition ValidationErrors : Type := list (ErrorKey * jsstring).

Record Touched : Type := mkTouched {
  t_email : bool;
  t_password : bool;
  t_confirmPassword : bool
}.

Record PasswordStrength : Type := mkStrength {
  score : nat;
  label : jsstring;
  color : jsstring
}.

Record ApiResponse : Type := mkApiResponse {
  api_message : option jsstring
}.

Definition b2n (b : bool) : nat := if b then 1 else 0.

Definition strengthMap : list (jsstring * jsstring) :=
  [ (js "Very Weak", js "bg-red-500");
    (js "Weak", js "bg-orange-500");
    (js "Fair", js "bg-yellow-500");
    (js "Good", js "bg-blue-500");
    (js "Strong", js "bg-green-500");
    (js "Very Strong", js "bg-emerald-500") ].

(** The six criteria of [calculatePasswordStrength], in source order. *)
Definition criteria (password : jsstring) : list bool :=
  [ Nat.leb 8 (length password);
    Nat.leb 12 (length password);
    test (Cls is_lower) password;
    test (Cls is_upper) password;
    test (Cls is_digit) password;
    test (Cls (fun c => negb (is_alnum c))) password ].

Definition calculatePasswordStrength (password : jsstring) : PasswordStrength :=
  let score := fold_left (fun acc b => acc + b2n b) (criteria password) 0 in
  mkStrength score
    (or_else (option_map fst (nth_error strengthMap score)) (js "Very Weak"))
    (or_else (option_map snd (nth_error strengthMap score)) (js "bg-red-500")).

(** [validateField]; [fd] supplies the [formData.password] the callback
    closes over. *)
Definition validateField (fd : FormData) (name : Field) (value : jsstring)
  : option jsstring :=
  match name with
  | F_email =>
      if negb (truthy (trim value)) then Some (js "Email is required")
      else if negb (test_anchored email_re value)
      then Some (js "Please enter a valid email address")
      else if Nat.ltb 254 (length value) then Some (js "Email is too long")
      else None
  | F_password =>
      if negb (truthy value) then Some (js "Password is required")
      else if Nat.ltb (length value) 8
      then Some (js "Password must be at least 8 characters long")
      else if Nat.ltb 128 (length value) then Some (js "Password is too long")
      else if negb (test_lookahead (anywhere is_lower) value)
      then Some (js "Password must contain at least one lowercase letter")
      else if negb (test_lookahead (anywhere is_upper) value)
      then Some (js "Password must contain at least one uppercase letter")
      else if negb (test_lookahead (anywhere is_digit) value)
      then Some (js "Password must contain at least one number")
      else if negb (test_lookahead (anywhere is_special) value)
      then Some (js "Password must contain at least one special character")
      else None
  | F_confirmPassword =>
      if negb (truthy value) then Some (js "Please confirm your password")
      else if negb (str_eqb value (password fd))
      then Some (js "Passwords do not match")
      else None
  end.

(** [validateForm]: the errors it passes to [setErrors] and its result. *)
Definition validateForm (fd : FormData) : ValidationErrors * bool :=
  let newErrors :=
    flat_map
      (fun key =>
         match validateField fd key (get_field fd key) with
         | Some error => if truthy error then [(OfField key, error)] else []
         | None => []
         end)
      form_keys in
  (newErrors, Nat.eqb (length newErrors) 0).

Record State : Type := mkState {
  formData : FormData;
  errors : ValidationErrors;
  touched : Touched;
  isLoading : bool
}.

(** The errors set for a response that is not [ok]. *)
Definition response_errors (st : Z) (data : ApiResponse) : ValidationErrors :=
  if Z.eqb st 409
  then [(OfField F_email, js "An account with this email already exists")]
  else if Z.eqb st 400
  then [(E_submit, or_else (api_message data) (js "Invalid registration data"))]
  else if Z.leb 500 st
  then [(E_submit, js "Server error. Please try again later.")]
  else [(E_submit,
         or_else (api_message data) (js "Registration failed. Please try again."))].

(** The [catch] clause of [handleSubmit]. *)
Definition caught (e : Thrown) : ValidationErrors :=
  [(E_submit,
    message_or e (js "Network error. Please check your connection and try again."))].

(** [handleSubmit].  [toLowerCase] is [String.prototype.toLowerCase]; [net]
    is what [fetch] does once called.  The result is the component state
    after the handler and the events it caused, oldest first. *)
Definition handleSubmit (toLowerCase : jsstring -> jsstring)
    (st : State) (net : outcome (FetchResponse ApiResponse))
  : State * list Event :=
  let fd := formData st in
  let all_touched := mkTouched true true true in
  let '(newErrors, valid) := validateForm fd in
  if negb valid then (mkState fd newErrors all_touched (isLoading st), [])
  else
    let request :=
      Fetch (js "/api/auth/register") (js "POST")
            [ (js "email", toLowerCase (trim (email fd)));
              (js "password", password fd) ] in
    match net with
    | Throw error =>
        (mkState fd (caught error) all_touched false, [request; ConsoleError])
    | Ok response =>
        match resp_json response with
        | Throw error =>
            (mkState fd (caught error) all_touched false, [request; ConsoleError])
        | Ok data =>
            if negb (resp_ok response)
            then (mkState fd (response_errors (resp_status response) data)
                          all_touched false,
                  [request])
            else (mkState fd [] all_touched false,
                  [request;
                   RouterPush
                     (js "/login?message=Registration successful! Please log in.")])
        end
    end.

End RegisterPage.

(* ===================================================================== *)
(** ** src/app/login/page.tsx *)
(* ===================================================================== *)

Module LoginPage.
Import Browser Rules.

Record FormData : Type := mkFormData {
  email : jsstring;
  password : jsstring
}.

Inductive Field : Type := F_email | F_password.

Definition form_keys : list Field := [F_email; F_password].

Definition get_field (fd : FormData) (k : Field) : jsstring :=
  match k with
  | F_email => email fd
  | F_password => password fd
  end.

Inductive ErrorKey : Type := OfField (k : Field) | E_submit.

Definition ValidationErrors : Type := list (ErrorKey * jsstring).

Record Touched : Type := mkTouched {
  t_email : bool;
  t_password : bool
}.

(** [SignInResponse] of next-auth. *)
Record SignInResponse : Type := mkSignInResponse {
  error : option jsstring;
  ok : bool;
  status : Z;
  url : option jsstring
}.

Definition validateField (name : Field) (value : jsstring) : option jsstring :=
  match name with
  | F_email =>
      if negb (truthy (trim value)) then Some (js "Email is required")
      else if negb (test_anchored email_re value)
      then Some (js "Please enter a valid email address")
      else None
  | F_password =>
      if negb (truthy value) then Some (js "Password is required")
      else if Nat.ltb (length value) 6
      then Some (js "Password must be at least 6 characters")
      else None
  end.

Definition validateForm (fd : FormData) : ValidationErrors * bool :=
  let newErrors :=
    flat_map
      (fun key =>
         match validateField key (get_field fd key) with
         | Some error => if truthy error then [(OfField key, error)] else []
         | None => []
         end)
      form_keys in
  (newErrors, Nat.eqb (length newErrors) 0).

Record State : Type := mkState {
  formData : FormData;
  errors : ValidationErrors;
  touched : Touched;
  isLoading : bool
}.

(** The [switch (result.error)] of [handleSubmit]. *)
Definition signin_errors (e : jsstring) : ValidationErrors :=
  if str_eqb e (js "CredentialsSignin")
  then [(E_submit, js "Invalid email or password. Please try again.")]
  else if str_eqb e (js "EmailNotVerified")
  then [(E_submit, js "Please verify your email before signing in.")]
  else if str_eqb e (js "UserNotFound")
  then [(OfField F_email, js "No account found with this email address.")]
  else if str_eqb e (js "TooManyAttempts")
  then [(E_submit, js "Too many failed attempts. Please try again later.")]
  else [(E_submit, or_else (Some e) (js "Authentication failed. Please try again."))].

Definition caught (e : Thrown) : ValidationErrors :=
  [(E_submit, message_or e (js "Network error. Please check your connection."))].

(** [result?.error] *)
Definition result_error (result : option SignInResponse) : option jsstring :=
  match result with
  | Some r => error r
  | None => None
  end.

(** [result?.ok] *)
Definition result_ok (result : option SignInResponse) : bool :=
  match result with
  | Some r => ok r
  | None => false
  end.

(** [handleSubmit].  [auth] is what [signIn("credentials", ...)] does once
    called: it throws, or resolves to a response or to [undefined]. *)
Definition handleSubmit (toLowerCase : jsstring -> jsstring)
    (st : State) (auth : outcome (option SignInResponse))
  : State * list Event :=
  let fd := formData st in
  let all_touched := mkTouched true true in
  let '(newErrors, valid) := validateForm fd in
  if negb valid then (mkState fd newErrors all_touched (isLoading st), [])
  else
    let call :=
      SignIn (js "credentials") (toLowerCase (trim (email fd))) (password fd)
             false in
    match auth with
    | Throw err =>
        (mkState fd (caught err) all_touched false, [call; ConsoleError])
    | Ok result =>
        if truthy_opt (result_error result)
        then (mkState fd (signin_errors (or_else (result_error result) []))
                      all_touched false,
              [call])
        else if result_ok result
        then (mkState fd [] all_touched false, [call; RouterPush (js "/")])
        else (mkState fd
                [(E_submit, js "An unexpected error occurred. Please try again.")]
                all_touched false,
              [call])
    end.

(** The sign-in result reports success with no error: a response whose
    [error] is falsy and whose [ok] is [true]. *)
Definition reports_success (auth : outcome (option SignInResponse)) : bool :=
  match auth with
  | Ok (Some r) => negb (truthy_opt (error r)) && ok r
  | _ => false
  end.

End LoginPage.

(* ===================================================================== *)
(** ** The plain login page (src/unnamed/part_000) *)
(* ===================================================================== *)

Module PlainLogin.
Import Browser.

Record State : Type := mkState {
  email : jsstring;
  password : jsstring
}.

(** [handleSubmit]: no validation, no [try]; a rejected [signIn] ends the
    handler. *)
Definition handleSubmit (st : State)
    (auth : outcome (option LoginPage.SignInResponse)) : list Event :=
  let call := SignIn (js "credentials") (email st) (password st) false in
  match auth with
  | Throw _ => [call]
  | Ok result =>
      if truthy_opt (LoginPage.result_error result)
      then [call; ConsoleLog]
      else [call; RouterPush (js "/")]
  end.

End PlainLogin.

(* ===================================================================== *)
(** ** The plain register page (src/unnamed/part_002) *)
(* ===================================================================== *)

Module PlainRegister.
Import Browser.

Record State : Type := mkState {
  email : jsstring;
  password : jsstring;
  confirmPassword : jsstring
}.

(** [handleSubmit].  [data] is read but not used; a response that is not
    [ok] raises [Error("REgisteration failed")] into the [catch] clause. *)
Definition handleSubmit (st : State) (net : outcome (FetchResponse unit))
  : list Event :=
  if negb (str_eqb (password st) (confirmPassword st))
  then [Alert (js "Password mismatch")]
  else
    let request :=
      Fetch (js "/api/auth/register") (js "POST")
            [ (js "email", email st); (js "password", password st) ] in
    match net with
    | Throw err => [request; AlertError err]
    | Ok res =>
        match resp_json res with
        | Throw err => [request; AlertError err]
        | Ok _ =>
            if negb (resp_ok res)
            then [request; AlertError (ErrorObject (js "REgisteration failed"))]
            else [request; RouterPush (js "/login")]
        end
    end.

End PlainRegister.

(* ===================================================================== *)
(** ** Sample inputs *)
(* ===================================================================== *)

Module Samples.
Import Server Browser.

Definition ann_email : jsstring := js "ann@example.org".
Definition bob_email : jsstring := js "bob@example.org".

Definition ann : UserDoc := mkUser ann_email (js "Abcdefg1!").

Definition uri : jsstring := js "mongodb://localhost:27017/video".

(** A process right after [db.ts] was loaded, with the given users. *)
Definition fresh_process (us : list UserDoc) : World :=
  mkWorld uri Db.initial_cache us [].

Definition econnrefused : Thrown := ErrorObject (js "ECONNREFUSED").

(** A process whose cache holds a promise that rejects. *)
Definition rejecting_process : World :=
  mkWorld uri (mkCache None (Some (Rejected econnrefused))) [] [].

Definition lookup_fails : RegisterRoute.Faults :=
  RegisterRoute.mkFaults (Some econnrefused) None.

Definition insert_fails : RegisterRoute.Faults :=
  RegisterRoute.mkFaults None (Some econnrefused).

Definition register_url : jsstring := js "/api/auth/register".

Definition mismatched_form : RegisterPage.State :=
  RegisterPage.mkState
    (RegisterPage.mkFormData ann_email (js "Abcdefg1!") (js "Abcdefg2!"))
    [] (RegisterPage.mkTouched false false false) false.

Definition matching_form : RegisterPage.State :=
  RegisterPage.mkState
    (RegisterPage.mkFormData ann_email (js "Abcdefg1!") (js "Abcdefg1!"))
    [] (RegisterPage.mkTouched false false false) false.

Definition mismatched_plain_form : PlainRegister.State :=
  PlainRegister.mkState ann_email (js "secret") (js "secrex").

Definition matching_plain_form : PlainRegister.State :=
  PlainRegister.mkState ann_email (js "secret") (js "secret").

Definition created : FetchResponse RegisterPage.ApiResponse :=
  mkFetchResponse 201 (Ok (RegisterPage.mkApiResponse None)).

Definition created_plain : FetchResponse unit := mkFetchResponse 201 (Ok tt).

(** ASCII lowercasing, enough for the sample forms. *)
Definition ascii_lower (s : jsstring) : jsstring :=
  map (fun c => if is_upper c then (c + 32)%N else c) s.

Definition sample_login : LoginPage.State :=
  LoginPage.mkState (LoginPage.mkFormData (js "Ann@Example.org") (js "secret"))
                    [] (LoginPage.mkTouched false false) false.

Definition signed_in : outcome (option LoginPage.SignInResponse) :=
  Ok (Some (LoginPage.mkSignInResponse None true 200 (Some (js "/")))).

Definition refused : option LoginPage.SignInResponse :=
  Some (LoginPage.mkSignInResponse None false 401 None).

(** A signer that needs a private key and answers with fixed values. *)
Definition sample_signer : UploadAuth.Signer :=
  fun privateKey publicKey =>
    match privateKey with
    | Some _ =>
        Ok (UploadAuth.mkAuthParams (js "3f1c9a52-token") 1767225600
                                    (js "9b7e04c1d2a8-signature"))
    | None => Throw (ErrorObject (js "privateKey is required"))
    end.

Definition private_key : jsstring := js "private_k3y".
Definition public_key : jsstring := js "public_k3y".

End Samples.

(* ===================================================================== *)
(** ** The pages and the register route, end to end *)
(* ===================================================================== *)

Module Wire.
Import Server Browser.

Definition is_fetch (e : Event) : bool :=
  match e with
  | Fetch _ _ _ => true
  | _ => false
  end.

Definition is_push (e : Event) : bool :=
  match e with
  | RouterPush _ => true
  | _ => false
  end.

(** [o[key]] on the object handed to [JSON.stringify]. *)
Fixpoint field_of (key : jsstring) (o : list (jsstring * jsstring))
  : option jsstring :=
  match o with
  | [] => None
  | (k, v) :: o' => if str_eqb k key then Some v else field_of key o'
  end.

(** The body the route destructures when the first request of a page to
    [/api/auth/register] arrives, if the page sent one. *)
Definition sent_request (events : list Event)
  : option (outcome RegisterRoute.Body) :=
  match filter (is_fetch_to (js "/api/auth/register")) events with
  | Fetch _ _ o :: _ =>
      Some (Ok (RegisterRoute.mkBody (field_of (js "email") o)
                                     (field_of (js "password") o)))
  | _ => None
  end.

(** [data.message] of a payload built by [NextResponse.json]. *)
Definition message_of (p : RegisterRoute.Payload) : option jsstring :=
  match p with
  | RegisterRoute.MessagePayload m => Some m
  | RegisterRoute.ErrorPayload _ => None
  end.

(** What [fetch] resolves to for an answer of the route; a handler that
    throws is answered by the framework with status 500 and a body that is
    not JSON. *)
Definition answer {D} (read : RegisterRoute.Payload -> D)
    (r : outcome RegisterRoute.Response) : outcome (FetchResponse D) :=
  match r with
  | Ok resp =>
      Ok (mkFetchResponse (RegisterRoute.status resp)
                          (Ok (read (RegisterRoute.payload resp))))
  | Throw e => Ok (mkFetchResponse 500 (Throw e))
  end.

(** One submission of the register page against the route.  The request a
    handler sends does not depend on the answer, so it is read off a run of
    the handler; the handler then runs with the answer of the route. *)
Definition register_round (toLowerCase : jsstring -> jsstring)
    (st : RegisterPage.State) (f : RegisterRoute.Faults) (w : World)
  : (RegisterPage.State * list Event) * World :=
  match sent_request
          (snd (RegisterPage.handleSubmit toLowerCase st (Throw NonError))) with
  | None => (RegisterPage.handleSubmit toLowerCase st (Throw NonError), w)
  | Some request =>
      let '(r, w') := RegisterRoute.POST f request w in
      (RegisterPage.handleSubmit toLowerCase st
         (answer (fun p => RegisterPage.mkApiResponse (message_of p)) r),
       w')
  end.

(** One submission of the plain register page against the route. *)
Definition plain_register_round
    (st : PlainRegister.State) (f : RegisterRoute.Faults) (w : World)
  : list Event * World :=
  match sent_request (PlainRegister.handleSubmit st (Throw NonError)) with
  | None => (PlainRegister.handleSubmit st (Throw NonError), w)
  | Some request =>
      let '(r, w') := RegisterRoute.POST f request w in
      (PlainRegister.handleSubmit st (answer (fun _ => tt) r), w')
  end.

End Wire.

(* ===================================================================== *)
(** ** src/app/register/page.tsx: the form between submissions *)
(* ===================================================================== *)

Module RegisterForm.
Import Browser.

Definition field_eqb (a b : RegisterPage.Field) : bool :=
  match a, b with
  | RegisterPage.F_email, RegisterPage.F_email => true
  | RegisterPage.F_password, RegisterPage.F_password => true
  | RegisterPage.F_confirmPassword, RegisterPage.F_confirmPassword => true
  | _, _ => false
  end.

Definition key_eqb (a b : RegisterPage.ErrorKey) : bool :=
  match a, b with
  | RegisterPage.OfField x, RegisterPage.OfField y => field_eqb x y
  | RegisterPage.E_submit, RegisterPage.E_submit => true
  | _, _ => false
  end.

(** The [errors] state as the handlers build it: an object whose keys may
    hold [undefined]. *)
Definition ErrorsObject : Type :=
  list (RegisterPage.ErrorKey * option jsstring).

(** [{ ...prev, [k]: v }]: an existing key keeps its place. *)
Fixpoint set_key (k : RegisterPage.ErrorKey) (v : option jsstring)
    (prev : ErrorsObject) : ErrorsObject :=
  match prev with
  | [] => [(k, v)]
  | (k', v') :: rest =>
      if key_eqb k' k then (k, v) :: rest else (k', v') :: set_key k v rest
  end.

(** [errors[k]] *)
Fixpoint get_key (k : RegisterPage.ErrorKey) (o : ErrorsObject)
  : option jsstring :=
  match o with
  | [] => None
  | (k', v) :: rest => if key_eqb k' k then v else get_key k rest
  end.

(** The object [setErrors] receives from [handleSubmit]. *)
Definition object_of (e : RegisterPage.ValidationErrors) : ErrorsObject :=
  map (fun kv => (fst kv, Some (snd kv))) e.

Record View : Type := mkView {
  formData : RegisterPage.FormData;
  errors : ErrorsObject;
  touched : RegisterPage.Touched;
  isLoading : bool
}.

(** The state of the first render. *)
Definition initial : View :=
  mkView (RegisterPage.mkFormData [] [] []) []
         (RegisterPage.mkTouched false false false) false.

(** [{ ...prev, [field]: value }] on the form data. *)
Definition set_field (fd : RegisterPage.FormData) (field : RegisterPage.Field)
    (value : jsstring) : RegisterPage.FormData :=
  match field with
  | RegisterPage.F_email =>
      RegisterPage.mkFormData value (RegisterPage.password fd)
                              (RegisterPage.confirmPassword fd)
  | RegisterPage.F_password =>
      RegisterPage.mkFormData (RegisterPage.email fd) value
                              (RegisterPage.confirmPassword fd)
  | RegisterPage.F_confirmPassword =>
      RegisterPage.mkFormData (RegisterPage.email fd)
                              (RegisterPage.password fd) value
  end.

(** [touched[field]] *)
Definition is_touched (t : RegisterPage.Touched) (field : RegisterPage.Field)
  : bool :=
  match field with
  | RegisterPage.F_email => RegisterPage.t_email t
  | RegisterPage.F_password => RegisterPage.t_password t
  | RegisterPage.F_confirmPassword => RegisterPage.t_confirmPassword t
  end.

(** [{ ...prev, [field]: true }] *)
Definition touch (t : RegisterPage.Touched) (field : RegisterPage.Field)
  : RegisterPage.Touched :=
  match field with
  | RegisterPage.F_email =>
      RegisterPage.mkTouched true (RegisterPage.t_password t)
                             (RegisterPage.t_confirmPassword t)
  | RegisterPage.F_password =>
      RegisterPage.mkTouched (RegisterPage.t_email t) true
                             (RegisterPage.t_confirmPassword t)
  | RegisterPage.F_confirmPassword =>
      RegisterPage.mkTouched (RegisterPage.t_email t)
                             (RegisterPage.t_password t) true
  end.

(** [handleInputChange].  [touched], [errors.submit] and the
    [formData.password] inside [validateField] are those of the render the
    callback belongs to; the two [setErrors] updaters apply in order. *)
Definition handleInputChange (field : RegisterPage.Field) (value : jsstring)
    (v : View) : View :=
  let errors1 :=
    if is_touched (touched v) field
    then set_key (RegisterPage.OfField field)
                 (RegisterPage.validateField (formData v) field value)
                 (errors v)
    else errors v in
  let errors2 :=
    if truthy_opt (get_key RegisterPage.E_submit (errors v))
    then set_key RegisterPage.E_submit None errors1
    else errors1 in
  mkView (set_field (formData v) field value) errors2 (touched v) (isLoading v).

(** [handleBlur] *)
Definition handleBlur (field : RegisterPage.Field) (v : View) : View :=
  mkView (formData v)
         (set_key (RegisterPage.OfField field)
                  (RegisterPage.validateField (formData v) field
                     (RegisterPage.get_field (formData v) field))
                  (errors v))
         (touch (touched v) field)
         (isLoading v).

(** [isFormValid], as a truth value. *)
Definition isFormValid (v : View) : bool :=
  Nat.eqb (length (errors v)) 0
  && truthy (RegisterPage.email (formData v))
  && truthy (RegisterPage.password (formData v))
  && truthy (RegisterPage.confirmPassword (formData v)).

(** The [disabled] attribute of the submit button. *)
Definition disabled (v : View) : bool := isLoading v || negb (isFormValid v).

(** A click on the submit button: a disabled button does not run its
    [onClick]; otherwise [handleSubmit] runs to its end. *)
Definition click (toLowerCase : jsstring -> jsstring) (v : View)
    (net : outcome (FetchResponse RegisterPage.ApiResponse))
  : View * list Event :=
  if disabled v then (v, [])
  else
    let '(st, events) :=
      RegisterPage.handleSubmit toLowerCase
        (RegisterPage.mkState (formData v) [] (touched v) (isLoading v)) net in
    (mkView (RegisterPage.formData st) (object_of (RegisterPage.errors st))
            (RegisterPage.touched st) (RegisterPage.isLoading st),
     events).

(** What the user does with the form. *)
Inductive Action : Type :=
| Change (field : RegisterPage.Field) (value : jsstring)
| Blur (field : RegisterPage.Field)
| Click (net : outcome (FetchResponse RegisterPage.ApiResponse)).

Definition step (toLowerCase : jsstring -> jsstring) (a : Action) (v : View)
  : View * list Event :=
  match a with
  | Change field value => (handleInputChange field value v, [])
  | Blur field => (handleBlur field v, [])
  | Click net => click toLowerCase v net
  end.

(** A session: the actions in order, with all events they cause. *)
Fixpoint run (toLowerCase : jsstring -> jsstring) (actions : list Action)
    (v : View) : View * list Event :=
  match actions with
  | [] => (v, [])
  | a :: rest =>
      let '(v1, events1) := step toLowerCase a v in
      let '(v2, events2) := run toLowerCase rest v1 in
      (v2, events1 ++ events2)
  end.

End RegisterForm.

(* ===================================================================== *)
(** ** src/app/login/page.tsx: the form between submissions *)
(* ===================================================================== *)

Module LoginForm.
Import Browser.

Definition field_eqb (a b : LoginPage.Field) : bool :=
  match a, b with
  | LoginPage.F_email, LoginPage.F_email => true
  | LoginPage.F_password, LoginPage.F_password => true
  | _, _ => false
  end.

Definition key_eqb (a b : LoginPage.ErrorKey) : bool :=
  match a, b with
  | LoginPage.OfField x, LoginPage.OfField y => field_eqb x y
  | LoginPage.E_submit, LoginPage.E_submit => true
  | _, _ => false
  end.

Definition ErrorsObject : Type := list (LoginPage.ErrorKey * option jsstring).

Fixpoint set_key (k : LoginPage.ErrorKey) (v : option jsstring)
    (prev : ErrorsObject) : ErrorsObject :=
  match prev with
  | [] => [(k, v)]
  | (k', v') :: rest =>
      if key_eqb k' k then (k, v) :: rest else (k', v') :: set_key k v rest
  end.

Fixpoint get_key (k : LoginPage.ErrorKey) (o : ErrorsObject)
  : option jsstring :=
  match o with
  | [] => None
  | (k', v) :: rest => if key_eqb k' k then v else get_key k rest
  end.

Definition object_of (e : LoginPage.ValidationErrors) : ErrorsObject :=
  map (fun kv => (fst kv, Some (snd kv))) e.

Record View : Type := mkView {
  formData : LoginPage.FormData;
  errors : ErrorsObject;
  touched : LoginPage.Touched;
  isLoading : bool;
  isGoogleLoading : bool
}.

Definition initial : View :=
  mkView (LoginPage.mkFormData [] []) [] (LoginPage.mkTouched false false)
         false false.

Definition set_field (fd : LoginPage.FormData) (field : LoginPage.Field)
    (value : jsstring) : LoginPage.FormData :=
  match field with
  | LoginPage.F_email => LoginPage.mkFormData value (LoginPage.password fd)
  | LoginPage.F_password => LoginPage.mkFormData (LoginPage.email fd) value
  end.

Definition is_touched (t : LoginPage.Touched) (field : LoginPage.Field)
  : bool :=
  match field with
  | LoginPage.F_email => LoginPage.t_email t
  | LoginPage.F_password => LoginPage.t_password t
  end.

Definition touch (t : LoginPage.Touched) (field : LoginPage.Field)
  : LoginPage.Touched :=
  match field with
  | LoginPage.F_email => LoginPage.mkTouched true (LoginPage.t_password t)
  | LoginPage.F_password => LoginPage.mkTouched (LoginPage.t_email t) true
  end.

(** [handleInputChange] *)
Definition handleInputChange (field : LoginPage.Field) (value : jsstring)
    (v : View) : View :=
  let errors1 :=
    if is_touched (touched v) field
    then set_key (LoginPage.OfField field)
                 (LoginPage.validateField field value) (errors v)
    else errors v in
  let errors2 :=
    if truthy_opt (get_key LoginPage.E_submit (errors v))
    then set_key LoginPage.E_submit None errors1
    else errors1 in
  mkView (set_field (formData v) field value) errors2 (touched v)
         (isLoading v) (isGoogleLoading v).

(** [handleBlur] *)
Definition handleBlur (field : LoginPage.Field) (v : View) : View :=
  mkView (formData v)
         (set_key (LoginPage.OfField field)
                  (LoginPage.validateField field
                     (LoginPage.get_field (formData v) field))
                  (errors v))
         (touch (touched v) field)
         (isLoading v) (isGoogleLoading v).

(** [isFormValid], as a truth value. *)
Definition isFormValid (v : View) : bool :=
  Nat.eqb (length (errors v)) 0
  && truthy (LoginPage.email (formData v))
  && truthy (LoginPage.password (formData v)).

Definition disabled (v : View) : bool := isLoading v || negb (isFormValid v).

Definition click (toLowerCase : jsstring -> jsstring) (v : View)
    (auth : outcome (option LoginPage.SignInResponse))
  : View * list Event :=
  if disabled v then (v, [])
  else
    let '(st, events) :=
      LoginPage.handleSubmit toLowerCase
        (LoginPage.mkState (formData v) [] (touched v) (isLoading v)) auth in
    (mkView (LoginPage.formData st) (object_of (LoginPage.errors st))
            (LoginPage.touched st) (LoginPage.isLoading st)
            (isGoogleLoading v),
     events).

(** [handleGoogleSignIn]: [google] is what [signIn("google", ...)] does.
    The result is the view after the handler and whether the handler logged
    an error to the console. *)
Definition handleGoogleSignIn (v : View) (google : outcome unit)
  : View * bool :=
  match google with
  | Ok _ =>
      (mkView (formData v) [] (touched v) (isLoading v) false, false)
  | Throw _ =>
      (mkView (formData v)
              [(LoginPage.E_submit,
                Some (js "Google sign in failed. Please try again."))]
              (touched v) (isLoading v) false,
       true)
  end.

(** What the user does with the two fields and the submit button. *)
Inductive Action : Type :=
| Change (field : LoginPage.Field) (value : jsstring)
| Blur (field : LoginPage.Field)
| Click (auth : outcome (option LoginPage.SignInResponse)).

Definition step (toLowerCase : jsstring -> jsstring) (a : Action) (v : View)
  : View * list Event :=
  match a with
  | Change field value => (handleInputChange field value v, [])
  | Blur field => (handleBlur field v, [])
  | Click auth => click toLowerCase v auth
  end.

Fixpoint run (toLowerCase : jsstring -> jsstring) (actions : list Action)
    (v : View) : View * list Event :=
  match actions with
  | [] => (v, [])
  | a :: rest =>
      let '(v1, events1) := step toLowerCase a v in
      let '(v2, events2) := run toLowerCase rest v1 in
      (v2, events1 ++ events2)
  end.

End LoginForm.

(* ===================================================================== *)
(** ** Further sample inputs *)
(* ===================================================================== *)

Module Samples2.
Import Server Browser Samples.

Definition good_password : jsstring := js "Abcdefg1!".
Definition long_password : jsstring := js "Abcdefgh123!".

Definition good_form : RegisterPage.FormData :=
  RegisterPage.mkFormData ann_email good_password good_password.

(** A process whose cache holds a promise that resolves. *)
Definition connected_process : World :=
  mkWorld uri (mkCache None (Some (Fulfilled MongooseConnection))) [] [].

(** Typing the three fields of the register form without leaving one, then
    clicking. *)
Definition no_blur_session : list RegisterForm.Action :=
  [ RegisterForm.Change RegisterPage.F_email ann_email;
    RegisterForm.Change RegisterPage.F_password good_password;
    RegisterForm.Change RegisterPage.F_confirmPassword good_password;
    RegisterForm.Click (Ok created) ].

(** The same with a tab out of the email field. *)
Definition blur_session : list RegisterForm.Action :=
  [ RegisterForm.Change RegisterPage.F_email ann_email;
    RegisterForm.Blur RegisterPage.F_email;
    RegisterForm.Change RegisterPage.F_password good_password;
    RegisterForm.Change RegisterPage.F_confirmPassword good_password;
    RegisterForm.Click (Ok created) ].

(** The register form filled in without leaving a field. *)
Definition filled_view : RegisterForm.View :=
  RegisterForm.mkView good_form [] (RegisterPage.mkTouched false false false)
                      false.

(** The answer of the route to a refused registration. *)
Definition refused_registration : FetchResponse RegisterPage.ApiResponse :=
  mkFetchResponse 400 (Ok (RegisterPage.mkApiResponse None)).

(** The login form filled in without leaving a field. *)
Definition filled_login : LoginForm.View :=
  LoginForm.mkView (LoginPage.mkFormData ann_email (js "secret")) []
                   (LoginPage.mkTouched false false) false false.

Definition wrong_password : outcome (option LoginPage.SignInResponse) :=
  Ok (Some (LoginPage.mkSignInResponse (Some (js "CredentialsSignin")) false
                                       401 None)).

Definition login_blur_session : list LoginForm.Action :=
  [ LoginForm.Change LoginPage.F_email ann_email;
    LoginForm.Blur LoginPage.F_email;
    LoginForm.Change LoginPage.F_password (js "secret");
    LoginForm.Click signed_in ].

End Samples2.

(* ===================================================================== *)
(** ** src/app/api/auth/register/route.ts: two requests at once *)
(* ===================================================================== *)

Module Overlap.
Import Server RegisterRoute.
Local Open Scope js_scope.

(** [POST] from its start to the point where [await User.findOne(...)] has
    answered: the response the route has returned by then, or the document
    it goes on to create. *)
Definition POST_to_lookup (f : Faults) (request : outcome Body)
  : M (Response + UserDoc) :=
  try_catch
    (b <- await request ;;
     match body_email b, body_password b with
     | Some email, Some password =>
         if negb (truthy email) || negb (truthy password)
         then ret (inl (mkResponse
                          (ErrorPayload (js "Email and passowrd are required"))
                          400))
         else
           Db.connectDb ;;;
           isExist <- User_findOne f email ;;
           match isExist with
           | Some _ =>
               ret (inl (mkResponse
                           (ErrorPayload (js "User already registered")) 400))
           | None => ret (inr (mkUser email password))
           end
     | _, _ =>
         ret (inl (mkResponse
                     (ErrorPayload (js "Email and passowrd are required"))
                     400))
     end)
    (fun error =>
       ret (inl (mkResponse (ErrorPayload (js "Failed to register user"))
                            400))).

(** [POST] from [await User.create(...)] on. *)
Definition POST_from_create (f : Faults) (doc : UserDoc) : M Response :=
  try_catch
    (user <- User_create f doc ;;
     json (MessagePayload (js "User  registered successfully")) 201)
    (fun error => json (ErrorPayload (js "Failed to register user")) 400).

(** The second part of a request, given where its first part ended. *)
Definition resume (f : Faults) (r : outcome (Response + UserDoc))
  : M Response :=
  match r with
  | Ok (inl resp) => ret resp
  | Ok (inr doc) => POST_from_create f doc
  | Throw e => throw e
  end.

(** One request, its two parts one after the other. *)
Definition POST_in_two_parts (f : Faults) (request : outcome Body)
  : M Response :=
  fun w =>
    let '(r, w1) := POST_to_lookup f request w in
    resume f r w1.

(** Two requests that overlap: both lookups have answered before either
    insert runs.  The result is the two answers and the world after
    both. *)
Definition overlapped (f1 : Faults) (request1 : outcome Body)
    (f2 : Faults) (request2 : outcome Body) (w : World)
  : (outcome Response * outcome Response) * World :=
  let '(r1, w1) := POST_to_lookup f1 request1 w in
  let '(r2, w2) := POST_to_lookup f2 request2 w1 in
  let '(a1, w3) := resume f1 r1 w2 in
  let '(a2, w4) := resume f2 r2 w3 in
  ((a1, a2), w4).

End Overlap.

(* ===================================================================== *)
(** * Properties *)
(* ===================================================================== *)

(** ** Strings and regular expressions *)

Module JSFacts.

Lemma str_eqb_spec (a b : jsstring) : reflect (a = b) (str_eqb a b).
Proof.
  revert b; induction a as [|x a IH]; intros [|y b]; simpl;
    try (constructor; congruence).
  destruct (N.eqb_spec x y) as [->|Hxy]; simpl.
  - destruct (IH b) as [->|Hab]; constructor; congruence.
  - constructor; congruence.
Qed.

Lemma str_eqb_eq (a b : jsstring) : str_eqb a b = true <-> a = b.
Proof. destruct (str_eqb_spec a b); split; congruence. Qed.

Lemma str_eqb_refl (a : jsstring) : str_eqb a a = true.
Proof. apply str_eqb_eq; reflexivity. Qed.

Lemma str_eqb_neq (a b : jsstring) : str_eqb a b = false <-> a <> b.
Proof. destruct (str_eqb_spec a b); split; congruence. Qed.

Lemma truthy_nonempty (s : jsstring) : truthy s = true <-> s <> [].
Proof. destruct s; simpl; split; congruence. Qed.

Lemma matches_cat (r1 r2 : regex) (s : jsstring) :
  matches (Cat r1 r2) s <->
  exists s1 s2, s = s1 ++ s2 /\ matches r1 s1 /\ matches r2 s2.
Proof.
  split.
  - inversion 1; subst. eauto.
  - intros (s1 & s2 & -> & H1 & H2). now constructor.
Qed.

Lemma matches_alt (r1 r2 : regex) (s : jsstring) :
  matches (Alt r1 r2) s <-> matches r1 s \/ matches r2 s.
Proof.
  split.
  - inversion 1; subst; auto.
  - intros [H|H]; [now apply MAltL | now apply MAltR].
Qed.

Lemma nullable_spec (r : regex) : nullable r = true <-> matches r [].
Proof.
  induction r as [| |p|r1 IH1 r2 IH2|r1 IH1 r2 IH2|r IH]; simpl.
  - split; [discriminate | inversion 1].
  - split; [constructor | reflexivity].
  - split; [discriminate | inversion 1].
  - rewrite andb_true_iff, IH1, IH2, matches_cat; split.
    + intros [H1 H2]. now exists [], [].
    + intros (s1 & s2 & E & H1 & H2).
      symmetry in E. apply app_eq_nil in E as [-> ->]. now split.
  - now rewrite orb_true_iff, IH1, IH2, matches_alt.
  - split; [constructor | reflexivity].
Qed.

(** A non-empty word of [Star r] starts with a non-empty word of [r]. *)
Lemma star_cons_inv (r : regex) (c : char16) (s : jsstring) :
  matches (Star r) (c :: s) ->
  exists s1 s2, s = s1 ++ s2 /\ matches r (c :: s1) /\ matches (Star r) s2.
Proof.
  intros H. remember (Star r) as r' eqn:Er. remember (c :: s) as w eqn:Ew.
  revert c s Ew.
  induction H as [| | | | | |r0 s1 s2 H1 _ H2 IH2]; try discriminate.
  injection Er as ->. intros c s Ew.
  destruct s1 as [|x s1]; simpl in Ew.
  - now apply IH2.
  - injection Ew as -> <-. now exists s1, s2.
Qed.

Lemma cat_cons_inv (r1 r2 : regex) (c : char16) (s : jsstring) :
  matches (Cat r1 r2) (c :: s) <->
  (exists s1 s2, s = s1 ++ s2 /\ matches r1 (c :: s1) /\ matches r2 s2) \/
  (matches r1 [] /\ matches r2 (c :: s)).
Proof.
  rewrite matches_cat. split.
  - intros (s1 & s2 & E & H1 & H2). destruct s1 as [|x s1]; simpl in E.
    + subst s2. now right.
    + injection E as <- ->. left. now exists s1, s2.
  - intros [(s1 & s2 & -> & H1 & H2) | [H1 H2]].
    + now exists (c :: s1), s2.
    + now exists [], (c :: s).
Qed.

Lemma deriv_spec (c : char16) (r : regex) (s : jsstring) :
  matches (deriv c r) s <-> matches r (c :: s).
Proof.
  revert s.
  induction r as [| |p|r1 IH1 r2 IH2|r1 IH1 r2 IH2|r IH]; intros s; simpl.
  - split; inversion 1.
  - split; inversion 1.
  - destruct (p c) eqn:Hp; split; intros H.
    + inversion H; subst. now constructor.
    + inversion H; subst. constructor.
    + inversion H.
    + inversion H; subst. congruence.
  - rewrite cat_cons_inv.
    assert (Hl : matches (Cat (deriv c r1) r2) s <->
                 exists s1 s2, s = s1 ++ s2 /\ matches r1 (c :: s1) /\ matches r2 s2).
    { rewrite matches_cat. split; intros (s1 & s2 & E & H1 & H2);
        exists s1, s2; (split; [assumption | split; [now apply IH1 | assumption]]). }
    destruct (nullable r1) eqn:Hn.
    + rewrite matches_alt, Hl, IH2.
      apply nullable_spec in Hn. tauto.
    + rewrite Hl. split; [tauto |].
      intros [H | [H _]]; [assumption |].
      apply nullable_spec in H. congruence.
  - now rewrite !matches_alt, IH1, IH2.
  - rewrite matches_cat. split.
    + intros (s1 & s2 & -> & H1 & H2). apply IH in H1.
      change (c :: s1 ++ s2) with ((c :: s1) ++ s2). now constructor.
    + intros H. apply star_cons_inv in H as (s1 & s2 & -> & H1 & H2).
      exists s1, s2. split; [reflexivity | split; [now apply IH | assumption]].
Qed.

(** The derivative matcher decides the language of the expression. *)
Lemma test_anchored_spec (r : regex) (s : jsstring) :
  test_anchored r s = true <-> matches r s.
Proof.
  revert r; induction s as [|c s IH]; intros r; simpl.
  - apply nullable_spec.
  - rewrite IH. apply deriv_spec.
Qed.

(** [p+] matches exactly the non-empty strings whose code units all
    satisfy [p]. *)
Lemma matches_cls (p : char16 -> bool) (s : jsstring) :
  matches (Cls p) s <-> exists c, s = [c] /\ p c = true.
Proof.
  split.
  - inversion 1; subst. eauto.
  - intros (c & -> & H). now constructor.
Qed.

Lemma matches_star_cls (p : char16 -> bool) (s : jsstring) :
  matches (Star (Cls p)) s <-> forallb p s = true.
Proof.
  split.
  - intros H. remember (Star (Cls p)) as r eqn:Er.
    induction H as [| | | | | |r0 s1 s2 H1 _ H2 IH2]; try discriminate.
    + reflexivity.
    + injection Er as ->. apply matches_cls in H1 as (c & -> & Hc). simpl.
      now rewrite Hc, IH2.
  - induction s as [|c s IH]; simpl; intros H.
    + constructor.
    + apply andb_true_iff in H as [Hc Hs].
      change (c :: s) with ([c] ++ s). constructor; [now constructor | auto].
Qed.

Lemma matches_plus_cls (p : char16 -> bool) (s : jsstring) :
  matches (Plus (Cls p)) s <-> s <> [] /\ forallb p s = true.
Proof.
  unfold Plus. rewrite matches_cat. split.
  - intros (s1 & s2 & -> & H1 & H2).
    apply matches_cls in H1 as (c & -> & Hc).
    apply matches_star_cls in H2. simpl.
    split; [discriminate | now rewrite Hc, H2].
  - intros [Hne Hall]. destruct s as [|c s]; [congruence |].
    simpl in Hall. apply andb_true_iff in Hall as [Hc Hs].
    exists [c], s.
    split; [reflexivity | split; [now constructor | now apply matches_star_cls]].
Qed.

Lemma matches_char (a : ascii) (s : jsstring) :
  matches (Cls (Rules.is_char a)) s <-> s = [chr a].
Proof.
  rewrite matches_cls. unfold Rules.is_char. split.
  - intros (c & -> & Hc). apply N.eqb_eq in Hc. now subst.
  - intros ->. exists (chr a). split; [reflexivity | apply N.eqb_refl].
Qed.

Lemma email_re_shape (s : jsstring) :
  matches Rules.email_re s <-> Rules.email_shape s.
Proof.
  unfold Rules.email_re, Rules.email_shape. split.
  - intros H.
    apply matches_cat in H as (a & s1 & -> & Ha & H).
    apply matches_cat in H as (x & s2 & -> & Hx & H).
    apply matches_cat in H as (b & s3 & -> & Hb & H).
    apply matches_cat in H as (y & c & -> & Hy & Hc).
    apply matches_char in Hx, Hy. subst x y.
    apply matches_plus_cls in Ha, Hb, Hc.
    exists a, b, c. simpl. intuition.
  - intros (a & b & c & -> & Ha & Hb & Hc & Fa & Fb & Fc).
    apply matches_cat. exists a, (chr "@" :: b ++ chr "." :: c).
    split; [reflexivity | split; [now apply matches_plus_cls |]].
    apply matches_cat. exists [chr "@"], (b ++ chr "." :: c).
    split; [reflexivity | split; [now apply matches_char |]].
    apply matches_cat. exists b, (chr "." :: c).
    split; [reflexivity | split; [now apply matches_plus_cls |]].
    apply matches_cat. exists [chr "."], c.
    split; [reflexivity | split; [now apply matches_char |]].
    now apply matches_plus_cls.
Qed.

Lemma matches_at_start_nullable (r : regex) (s : jsstring) :
  nullable r = true -> matches_at_start r s = true.
Proof. intros H. destruct s; simpl; now rewrite H. Qed.

Lemma matches_at_start_Void (s : jsstring) : matches_at_start Void s = false.
Proof. induction s; simpl; auto. Qed.

(** [/[c]/.test(s)] holds exactly when some code unit of [s] is in the
    class. *)
Lemma test_cls (p : char16 -> bool) (s : jsstring) :
  test (Cls p) s = existsb p s.
Proof.
  induction s as [|c s IH]; simpl; [reflexivity |].
  rewrite IH. destruct (p c); simpl.
  - now rewrite matches_at_start_nullable.
  - now rewrite matches_at_start_Void.
Qed.

End JSFacts.

(** ** The register page *)

Module RegisterPageFacts.
Import Browser Rules RegisterPage JSFacts.

(** The three checks of the email rule, one by one. *)
Lemma email_rule_checks (fd : FormData) (value : jsstring) :
  validateField fd F_email value = None <->
  truthy (trim value) = true /\
  test_anchored email_re value = true /\
  Nat.ltb 254 (length value) = false.
Proof.
  unfold validateField.
  destruct (truthy (trim value)), (test_anchored email_re value),
           (Nat.ltb 254 (length value)); simpl; intuition discriminate.
Qed.

(** C5.  The email rule of the registration form reports no error exactly
    when the value is not blank once trimmed, matches the pattern
    [^[^\s@]+@[^\s@]+\.[^\s@]+$] and has at most 254 code units. *)
Theorem validateField_email_accepts (fd : FormData) (value : jsstring) :
  validateField fd F_email value = None <->
  trim value <> [] /\ matches email_re value /\ length value <= 254.
Proof.
  rewrite email_rule_checks, truthy_nonempty, test_anchored_spec,
          Nat.ltb_ge.
  reflexivity.
Qed.

(** An accepted email reads [local @ domain . tld]. *)
Lemma accepted_email_shape (fd : FormData) (value : jsstring) :
  validateField fd F_email value = None -> email_shape value.
Proof.
  intros H. apply email_rule_checks in H as (_ & H & _).
  apply email_re_shape. now apply test_anchored_spec.
Qed.

Lemma fold_b2n_bound (l : list bool) (n : nat) :
  fold_left (fun acc b => acc + b2n b) l n <= n + length l.
Proof.
  revert n; induction l as [|b l IH]; intros n; simpl; [lia |].
  specialize (IH (n + b2n b)). destruct b; simpl in *; lia.
Qed.

(** C10.  The score of [calculatePasswordStrength] lies between 0 and 6,
    the label and colour are always a row of the table, and a password
    meeting all six criteria scores 6, for which the table has no row: it
    gets the fallback label [Very Weak] and colour [bg-red-500]. *)
Theorem calculatePasswordStrength_range (password : jsstring) :
  let r := calculatePasswordStrength password in
  0 <= score r <= 6 /\
  In (label r, color r) strengthMap /\
  (forallb (fun b => b) (criteria password) = true ->
   score r = 6 /\
   nth_error strengthMap (score r) = None /\
   label r = js "Very Weak" /\ color r = js "bg-red-500").
Proof.
  unfold calculatePasswordStrength, criteria.
  generalize (Nat.leb 8 (length password)) (Nat.leb 12 (length password))
             (test (Cls is_lower) password) (test (Cls is_upper) password)
             (test (Cls is_digit) password)
             (test (Cls (fun c => negb (is_alnum c))) password).
  intros b1 b2 b3 b4 b5 b6.
  destruct b1, b2, b3, b4, b5, b6; cbv -[Nat.le]; 
    (split; [lia | split; [tauto | try discriminate; intros _; auto]]).
Qed.

(** A password that meets the six criteria. *)
Lemma calculatePasswordStrength_range_witness :
  score (calculatePasswordStrength (js "Abcdefgh123!")) = 6 /\
  label (calculatePasswordStrength (js "Abcdefgh123!")) = js "Very Weak".
Proof.
  destruct (calculatePasswordStrength_range (js "Abcdefgh123!"))
    as (_ & _ & H).
  destruct (H eq_refl) as (H6 & _ & Hl & _).
  split; [exact H6 | exact Hl].
Defined.

Lemma flat_map_length_pos {A B} (f : A -> list B) (l : list A) (x : A) :
  In x l -> f x <> [] -> length (flat_map f l) <> 0.
Proof.
  induction l as [|y l IH]; simpl; [tauto |].
  intros [->|Hin] Hx; rewrite length_app.
  - destruct (f x); [congruence | simpl; lia].
  - specialize (IH Hin Hx). lia.
Qed.

(** Differing password fields always leave an error under
    [confirmPassword], so the form does not validate. *)
Lemma validateForm_mismatch (fd : FormData) :
  password fd <> confirmPassword fd -> snd (validateForm fd) = false.
Proof.
  intros Hne. unfold validateForm. cbv beta iota zeta delta [snd].
  apply Nat.eqb_neq.
  apply flat_map_length_pos with (x := F_confirmPassword).
  - unfold form_keys. simpl. tauto.
  - simpl. destruct (truthy (confirmPassword fd)); simpl; [| discriminate].
    destruct (str_eqb_spec (confirmPassword fd) (password fd)) as [E|E];
      [congruence | discriminate].
Qed.

End RegisterPageFacts.

(** ** Submitting the forms *)

Module SubmitFacts.
Import Browser Rules JSFacts Samples.

(** C9.  When the password and the confirmation differ, the submit handler
    returns without a request to [/api/auth/register]; this holds for the
    register page and for the plain register page. *)
Theorem mismatch_sends_no_request :
  (forall toLowerCase (st : RegisterPage.State) net,
      RegisterPage.password (RegisterPage.formData st)
        <> RegisterPage.confirmPassword (RegisterPage.formData st) ->
      existsb (is_fetch_to register_url)
              (snd (RegisterPage.handleSubmit toLowerCase st net)) = false) /\
  (forall (st : PlainRegister.State) net,
      PlainRegister.password st <> PlainRegister.confirmPassword st ->
      existsb (is_fetch_to register_url)
              (PlainRegister.handleSubmit st net) = false).
Proof.
  split.
  - intros lower st net Hne. unfold RegisterPage.handleSubmit.
    pose proof (RegisterPageFacts.validateForm_mismatch _ Hne) as Hv.
    destruct (RegisterPage.validateForm (RegisterPage.formData st))
      as [newErrors valid].
    simpl in Hv. subst valid. reflexivity.
  - intros st net Hne. unfold PlainRegister.handleSubmit.
    destruct (str_eqb_spec (PlainRegister.password st)
                           (PlainRegister.confirmPassword st)) as [E|E];
      [congruence | reflexivity].
Qed.

Lemma mismatch_sends_no_request_witness :
  existsb (is_fetch_to register_url)
          (snd (RegisterPage.handleSubmit ascii_lower mismatched_form (Ok created)))
    = false /\
  existsb (is_fetch_to register_url)
          (PlainRegister.handleSubmit mismatched_plain_form (Ok created_plain))
    = false.
Proof.
  destruct mismatch_sends_no_request as [Hpage Hplain]. split.
  - apply Hpage. vm_compute. discriminate.
  - apply Hplain. vm_compute. discriminate.
Defined.

(** With equal password fields and a valid form both pages do send the
    request. *)
Lemma matching_form_sends_request :
  existsb (is_fetch_to register_url)
          (snd (RegisterPage.handleSubmit ascii_lower matching_form (Ok created)))
    = true /\
  existsb (is_fetch_to register_url)
          (PlainRegister.handleSubmit matching_plain_form (Ok created_plain))
    = true.
Proof. split; vm_compute; reflexivity. Qed.

Import LoginPage.

(** The login page with a form that validates: one call of the credentials
    sign-in, with the trimmed and lowercased email and the password, and
    navigation to [/] exactly on success with no error. *)
Lemma login_submit_signs_in
    (toLowerCase : jsstring -> jsstring) (st : State)
    (auth : outcome (option SignInResponse)) :
  snd (validateForm (formData st)) = true ->
  let events := snd (handleSubmit toLowerCase st auth) in
  filter is_signin events =
    [SignIn (js "credentials")
            (toLowerCase (trim (email (formData st))))
            (password (formData st)) false] /\
  (existsb (is_push_to (js "/")) events = true <-> reports_success auth = true).
Proof.
  intros Hv. unfold handleSubmit.
  destruct (validateForm (formData st)) as [newErrors valid].
  simpl in Hv. subst valid. cbv beta iota zeta. simpl negb. cbv iota.
  destruct auth as [[r|]|e]; simpl.
  - destruct (error r) as [e|]; simpl.
    + destruct (truthy e); simpl.
      * split; [reflexivity | split; discriminate].
      * destruct (ok r); simpl; split; try reflexivity; split; congruence.
    + destruct (ok r); simpl; split; try reflexivity; split; congruence.
  - split; [reflexivity | split; discriminate].
  - split; [reflexivity | split; discriminate].
Qed.

(** A form that passes the validation of the login page, submitted on the
    plain login page: the email goes out as typed, not lowercased, and the
    page navigates on a result that does not report success. *)
Lemma plain_login_counterexample :
  snd (validateForm (formData sample_login)) = true /\
  PlainLogin.handleSubmit
    (PlainLogin.mkState (js "Ann@Example.org") (js "secret")) (Ok refused) =
  [SignIn (js "credentials") (js "Ann@Example.org") (js "secret") false;
   RouterPush (js "/")] /\
  reports_success (Ok refused) = false.
Proof. repeat split. Qed.

(** C7, as the two login pages have it.  On the login page, a form that
    passes field validation leads to one call of the credentials sign-in
    with the entered email, trimmed and lowercased, and the entered
    password, and to navigation to [/] exactly when the result reports
    success with no error.  The plain login page validates nothing: it
    calls the credentials sign-in with the email and password as typed and
    navigates to [/] exactly when the call resolves to a result without an
    error, whatever its [ok]. *)
Theorem login_pages_sign_in :
  (forall (toLowerCase : jsstring -> jsstring) (st : State)
          (auth : outcome (option SignInResponse)),
      snd (validateForm (formData st)) = true ->
      let events := snd (handleSubmit toLowerCase st auth) in
      filter is_signin events =
        [SignIn (js "credentials")
                (toLowerCase (trim (email (formData st))))
                (password (formData st)) false] /\
      (existsb (is_push_to (js "/")) events = true <->
       reports_success auth = true)) /\
  (forall (st : PlainLogin.State) (auth : outcome (option SignInResponse)),
      let events := PlainLogin.handleSubmit st auth in
      filter is_signin events =
        [SignIn (js "credentials") (PlainLogin.email st)
                (PlainLogin.password st) false] /\
      (existsb (is_push_to (js "/")) events = true <->
       exists result,
         auth = Ok result /\ truthy_opt (result_error result) = false)).
Proof.
  split.
  - intros toLowerCase st auth Hv.
    exact (login_submit_signs_in toLowerCase st auth Hv).
  - intros st auth. unfold PlainLogin.handleSubmit.
    destruct auth as [result|e]; simpl.
    + destruct (truthy_opt (result_error result)) eqn:E; simpl.
      * split; [reflexivity |]. split; [discriminate |].
        intros (r & Hr & H). injection Hr as <-. congruence.
      * split; [reflexivity |]. split; [| reflexivity].
        intros _. now exists result.
    + split; [reflexivity |]. split; [discriminate |].
      intros (r & Hr & _). discriminate.
Qed.

Lemma login_pages_sign_in_witness :
  filter is_signin (snd (handleSubmit ascii_lower sample_login signed_in)) =
    [SignIn (js "credentials") (js "ann@example.org") (js "secret") false] /\
  existsb (is_push_to (js "/"))
          (snd (handleSubmit ascii_lower sample_login signed_in)) = true.
Proof.
  destruct login_pages_sign_in as [Hpage _].
  destruct (Hpage ascii_lower sample_login signed_in) as [Hcall Hnav].
  - vm_compute. reflexivity.
  - split.
    + exact Hcall.
    + apply Hnav. vm_compute. reflexivity.
Defined.

(** X24.  A login form that does not validate causes no sign-in call and
    no navigation. *)
Lemma login_invalid_form_no_call
    (toLowerCase : jsstring -> jsstring) (st : State)
    (auth : outcome (option SignInResponse)) :
  snd (validateForm (formData st)) = false ->
  snd (handleSubmit toLowerCase st auth) = [].
Proof.
  intros Hv. unfold handleSubmit.
  destruct (validateForm (formData st)) as [newErrors valid].
  simpl in Hv. subst valid. reflexivity.
Qed.

(** The login rule for emails is the register rule without the length
    limit. *)
Lemma login_email_rule (value : jsstring) :
  validateField F_email value = None <->
  trim value <> [] /\ matches email_re value.
Proof.
  unfold validateField.
  rewrite <- truthy_nonempty, <- test_anchored_spec.
  destruct (truthy (trim value)), (test_anchored email_re value); simpl;
    intuition discriminate.
Qed.

(** X23.  The plain login page passes the email as entered and navigates
    whenever the result carries no error, whatever [ok] says. *)
Lemma plain_login_submit (st : PlainLogin.State)
    (result : option SignInResponse) :
  let events := PlainLogin.handleSubmit st (Ok result) in
  filter is_signin events =
    [SignIn (js "credentials") (PlainLogin.email st) (PlainLogin.password st)
            false] /\
  (existsb (is_push_to (js "/")) events = true <->
   truthy_opt (result_error result) = false).
Proof.
  unfold PlainLogin.handleSubmit.
  destruct (truthy_opt (result_error result)); simpl;
    split; try reflexivity; split; congruence.
Qed.

(** On the plain page a response with [ok: false] and no error still
    navigates, and the email goes out as typed. *)
Lemma plain_login_navigates_without_ok :
  PlainLogin.handleSubmit
    (PlainLogin.mkState (js " Ann@Example.org") (js "secret")) (Ok refused) =
  [SignIn (js "credentials") (js " Ann@Example.org") (js "secret") false;
   RouterPush (js "/")].
Proof. reflexivity. Qed.

End SubmitFacts.

(** ** The cached connection *)

Module DbFacts.
Import Server Db.

(** What one call of [connectDb] does, by the state of the cache. *)
Lemma connectDb_cases (w : World) :
  connectDb w =
  match conn (cached w), promise (cached w) with
  | Some c, _ => (Ok (Some c), w)
  | None, None =>
      (Ok None,
       mkWorld (MONGODB_URI w) (mkCache None None) (users w)
               (effects w ++ [MongooseConnect (MONGODB_URI w)]))
  | None, Some (Fulfilled c) =>
      (Ok (Some c),
       mkWorld (MONGODB_URI w) (mkCache (Some c) (Some (Fulfilled c)))
               (users w) (effects w))
  | None, Some (Rejected e) =>
      (Throw e,
       mkWorld (MONGODB_URI w) (mkCache None None) (users w) (effects w))
  end.
Proof.
  destruct w as [uri [[c|] [[c'|e]|]] us effs]; reflexivity.
Qed.

Lemma connect_attempts_app (l1 l2 : list Effect) :
  connect_attempts (l1 ++ l2) = connect_attempts l1 + connect_attempts l2.
Proof. unfold connect_attempts. now rewrite filter_app, length_app. Qed.

(** C1.  Starting from the cache the module creates, a call of [connectDb]
    starts a connection attempt, stores nothing in the cache and returns
    [null]; the next call finds the cache empty and starts another
    attempt. *)
Theorem connectDb_reconnects_every_call (uri : jsstring) (us : list UserDoc) :
  let w0 := mkWorld uri initial_cache us [] in
  let w1 := snd (connectDb w0) in
  let w2 := snd (connectDb w1) in
  fst (connectDb w0) = Ok None /\
  cached w1 = initial_cache /\
  fst (connectDb w1) = Ok None /\
  cached w2 = initial_cache /\
  effects w2 = [MongooseConnect uri; MongooseConnect uri].
Proof. repeat split. Qed.

(** X12.  The cache stays empty however often [connectDb] runs: from an
    empty cache a call returns [null], leaves the cache empty and adds one
    connection attempt. *)
Lemma connectDb_empty_cache (w : World) :
  cached w = initial_cache ->
  fst (connectDb w) = Ok None /\
  cached (snd (connectDb w)) = initial_cache /\
  effects (snd (connectDb w)) = effects w ++ [MongooseConnect (MONGODB_URI w)].
Proof.
  intros H. rewrite connectDb_cases, H. simpl. repeat split.
Qed.

(** C4.  One call of [connectDb] starts at most one connection attempt;
    when awaiting the cached promise fails, the call starts none, resets
    the cached promise to [null] and throws that error. *)
Theorem connectDb_no_retry (w : World) :
  connect_attempts (effects (snd (connectDb w)))
    <= connect_attempts (effects w) + 1 /\
  (forall e,
      conn (cached w) = None ->
      promise (cached w) = Some (Rejected e) ->
      fst (connectDb w) = Throw e /\
      promise (cached (snd (connectDb w))) = None /\
      effects (snd (connectDb w)) = effects w).
Proof.
  rewrite connectDb_cases. split.
  - destruct (conn (cached w)) as [c|];
      [| destruct (promise (cached w)) as [[c'|e]|]]; cbn [snd effects];
      rewrite ?connect_attempts_app; cbn [connect_attempts filter length]; lia.
  - intros e Hc Hp. rewrite Hc, Hp. simpl. repeat split.
Qed.

Lemma connectDb_no_retry_witness :
  fst (connectDb Samples.rejecting_process) = Throw Samples.econnrefused /\
  promise (cached (snd (connectDb Samples.rejecting_process))) = None /\
  effects (snd (connectDb Samples.rejecting_process)) = [].
Proof.
  destruct (connectDb_no_retry Samples.rejecting_process) as [_ H].
  apply (H Samples.econnrefused); reflexivity.
Defined.

(** A cached promise that settles is awaited without a new attempt, and its
    connection is kept for the calls that follow. *)
Lemma connectDb_uses_cached_promise (w : World) (c : Connection) :
  conn (cached w) = None ->
  promise (cached w) = Some (Fulfilled c) ->
  fst (connectDb w) = Ok (Some c) /\
  conn (cached (snd (connectDb w))) = Some c /\
  effects (snd (connectDb w)) = effects w.
Proof.
  intros Hc Hp. rewrite connectDb_cases, Hc, Hp. repeat split.
Qed.

End DbFacts.

(** ** The register route *)

Module RegisterRouteFacts.
Import Server Db RegisterRoute JSFacts.

(** The route on a body with two non-empty fields, step by step. *)
Lemma POST_credentials (f : Faults) (e p : jsstring) (w : World) :
  truthy e = true -> truthy p = true ->
  POST f (credentials e p) w =
  let w1 := snd (connectDb w) in
  match rejects (cached w) with
  | Some _ => (Ok failed, w1)
  | None =>
      match findOne_throws f with
      | Some _ => (Ok failed, logged [FindOne e] w1)
      | None =>
          match find (has_email e) (users w) with
          | Some _ => (Ok already_registered, logged [FindOne e] w1)
          | None =>
              match create_throws f with
              | Some _ =>
                  (Ok failed, logged [FindOne e; Create (mkUser e p)] w1)
              | None =>
                  (Ok registered,
                   stored (mkUser e p)
                          (logged [FindOne e; Create (mkUser e p)] w1))
              end
          end
      end
  end.
Proof.
  intros He Hp.
  destruct e as [|x e]; [discriminate |].
  destruct p as [|y p]; [discriminate |].
  destruct w as [uri [[c|] [[c'|err]|]] us effs];
    destruct f as [[ft|] [ct|]];
    unfold POST, credentials, User_findOne, User_create, connectDb, json,
           try_catch, bind, await, ret, throw, emit, logged, stored; cbn;
    rewrite <- ?app_assoc; cbn;
    try reflexivity;
    destruct (find (has_email (x :: e)) us); cbn;
    rewrite <- ?app_assoc; reflexivity.
Qed.

Lemma POST_malformed (f : Faults) (err : Thrown) (w : World) :
  POST f (Throw err) w = (Ok failed, w).
Proof. reflexivity. Qed.

Lemma POST_missing (f : Faults) (b : Body) (w : World) :
  truthy_opt (body_email b) && truthy_opt (body_password b) = false ->
  POST f (Ok b) w = (Ok missing_fields, w).
Proof.
  destruct b as [[[|x e]|] [[|y p]|]]; simpl; intros H;
    try discriminate; reflexivity.
Qed.

Lemma connectDb_keeps_users (w : World) :
  users (snd (connectDb w)) = users w.
Proof.
  rewrite DbFacts.connectDb_cases.
  destruct (conn (cached w)); [reflexivity |].
  destruct (promise (cached w)) as [[c|e]|]; reflexivity.
Qed.

Lemma inserts_app (l1 l2 : list Effect) :
  inserts (l1 ++ l2) = inserts l1 ++ inserts l2.
Proof. apply flat_map_app. Qed.

Lemma connectDb_inserts (w : World) :
  inserts (effects (snd (connectDb w))) = inserts (effects w).
Proof.
  rewrite DbFacts.connectDb_cases.
  destruct (conn (cached w)); [reflexivity |].
  destruct (promise (cached w)) as [[c|e]|]; simpl; try reflexivity.
  rewrite inserts_app. simpl. apply app_nil_r.
Qed.

(** Every input either succeeds or is one of the failure cases. *)
Lemma failure_cases (f : Faults) (request : outcome Body) (w : World) :
  succeeds f request w = false <-> Failure f w request.
Proof.
  split.
  - destruct request as [[[e|] [p|]]|err]; simpl; intros H;
      try (now constructor).
    destruct (truthy e) eqn:He;
        [| now apply MissingEmail].
      destruct (truthy p) eqn:Hp;
        [| now apply MissingPassword].
      destruct (rejects (cached w)) as [err|] eqn:Hr;
        [now apply ConnectionError with err |].
      destruct (findOne_throws f) as [err|] eqn:Hf;
        [now apply LookupError with err |].
      destruct (find (has_email e) (users w)) as [u|] eqn:Hu;
        [now apply (DuplicateEmail f w e p Hu) |].
      destruct (create_throws f) as [err|] eqn:Hc;
        [now apply InsertError with err |].
      discriminate.
  - intros H.
    destruct H as [err|b H|b H|e p u H|b err H|b err H|b err H]; simpl;
      try reflexivity;
      try (destruct b as [[e|] [p|]]; simpl in *; try reflexivity);
      rewrite ?H; simpl;
      repeat match goal with
             | |- context [truthy ?x] => destruct (truthy x); simpl
             | |- context [is_none ?x] => destruct x; simpl
             end; try reflexivity; discriminate.
Qed.

(** C8.  The route always answers, with status 201 when the registration
    goes through and with status 400 in every other case; no input makes
    it answer 409 or a 5xx status. *)
Theorem POST_status (f : Faults) (request : outcome Body) (w : World) :
  exists resp,
    fst (POST f request w) = Ok resp /\
    status resp = (if succeeds f request w then 201 else 400)%Z /\
    status resp <> 409%Z /\
    ~ (500 <= status resp <= 599)%Z.
Proof.
  assert (Hk : forall resp : Response,
             (status resp = 201 \/ status resp = 400)%Z ->
             status resp <> 409%Z /\ ~ (500 <= status resp <= 599)%Z)
    by (intros resp [H|H]; rewrite H; lia).
  destruct request as [b|err].
  - destruct (truthy_opt (body_email b) && truthy_opt (body_password b))
      eqn:Hb.
    + destruct b as [[e|] [p|]]; simpl in Hb; rewrite ?andb_false_r in Hb;
        try discriminate.
      apply andb_true_iff in Hb as [He Hp].
      rewrite (@POST_credentials f e p w He Hp :
                 POST f (Ok (mkBody (Some e) (Some p))) w = _).
      simpl succeeds. rewrite He, Hp. cbv zeta.
      destruct (rejects (cached w)); [simpl; eauto 6 |].
      destruct (findOne_throws f); [simpl; eauto 6 |].
      destruct (find (has_email e) (users w)); [simpl; eauto 6 |].
      destruct (create_throws f); simpl; eauto 6.
    + rewrite (POST_missing f b w Hb). exists missing_fields.
      split; [reflexivity |]. split; [| apply Hk; now right].
      destruct b as [[e|] [p|]]; simpl in *; try reflexivity.
      now rewrite Hb.
  - exists failed. repeat split; simpl; lia.
Qed.

Lemma find_has_email (e : jsstring) (us : list UserDoc) (u : UserDoc) :
  find (has_email e) us = Some u -> In u us /\ email u = e.
Proof.
  intros H. apply find_some in H as [Hin He].
  split; [assumption | now apply str_eqb_eq].
Qed.

Lemma find_has_email_none (e : jsstring) (us : list UserDoc) :
  find (has_email e) us = None <-> forall u, In u us -> email u <> e.
Proof.
  split.
  - intros H u Hin. apply (find_none _ _ H) in Hin.
    now apply str_eqb_neq.
  - intros H. destruct (find (has_email e) us) as [u|] eqn:Hu; [| reflexivity].
    apply find_has_email in Hu as [Hin He]. now apply H in Hin.
Qed.

(** C2, as the route has it.  For a body with a non-empty email and
    password: when a record with that email exists the route answers 400
    and inserts nothing, and the error is [User already registered]
    whenever the connection and the lookup do not throw and
    [Failed to register user] when one of them throws; in every run a
    document is handed to [User.create] only directly after a lookup of
    that email that completed and found no record. *)
Theorem POST_checks_before_insert
    (f : Faults) (e p : jsstring) (w : World) :
  truthy e = true -> truthy p = true ->
  let w' := snd (POST f (credentials e p) w) in
  (forall u,
      find (has_email e) (users w) = Some u ->
      exists resp,
        fst (POST f (credentials e p) w) = Ok resp /\
        status resp = 400%Z /\
        users w' = users w /\
        inserts (effects w') = inserts (effects w) /\
        (rejects (cached w) = None -> findOne_throws f = None ->
         resp = already_registered) /\
        (rejects (cached w) <> None \/ findOne_throws f <> None ->
         resp = failed)) /\
  (users w' <> users w \/ inserts (effects w') <> inserts (effects w) ->
   findOne_throws f = None /\
   find (has_email e) (users w) = None /\
   exists before,
     effects w' = before ++ [FindOne e; Create (mkUser e p)]).
Proof.
  intros He Hp. rewrite (POST_credentials f e p w He Hp). cbv zeta.
  pose proof (connectDb_keeps_users w) as Hu.
  pose proof (connectDb_inserts w) as Hi.
  split.
  - intros u Hfind. rewrite Hfind.
    destruct (rejects (cached w));
      [exists failed; simpl; intuition (try discriminate; try congruence) |].
    destruct (findOne_throws f).
    + exists failed. unfold logged; simpl. rewrite inserts_app, Hi, Hu. simpl.
      rewrite app_nil_r. intuition (try discriminate; try congruence).
    + exists already_registered. unfold logged; simpl.
      rewrite inserts_app, Hi, Hu. simpl. rewrite app_nil_r.
      intuition (try discriminate; try congruence).
  - destruct (rejects (cached w)); [simpl; tauto |].
    destruct (findOne_throws f).
    { unfold logged; simpl. rewrite inserts_app, Hi, Hu. simpl.
      rewrite app_nil_r. tauto. }
    destruct (find (has_email e) (users w)).
    { unfold logged; simpl. rewrite inserts_app, Hi, Hu. simpl.
      rewrite app_nil_r. tauto. }
    intros _. split; [reflexivity | split; [reflexivity |]].
    exists (effects (snd (connectDb w))).
    destruct (create_throws f); reflexivity.
Qed.

(** C3, as the route has it.  For a body with a non-empty email and
    password, when no record has that email and neither the connection, the
    lookup nor the insert throws, the route appends exactly one document
    with that email and password to the users collection and answers
    201. *)
Theorem POST_registers (f : Faults) (e p : jsstring) (w : World) :
  truthy e = true -> truthy p = true ->
  find (has_email e) (users w) = None ->
  rejects (cached w) = None ->
  findOne_throws f = None ->
  create_throws f = None ->
  let w' := snd (POST f (credentials e p) w) in
  fst (POST f (credentials e p) w) = Ok registered /\
  status registered = 201%Z /\
  users w' = users w ++ [mkUser e p] /\
  inserts (effects w') = inserts (effects w) ++ [mkUser e p].
Proof.
  intros He Hp Hfind Hr Hf Hc.
  rewrite (POST_credentials f e p w He Hp), Hr, Hf, Hfind, Hc. cbv zeta.
  unfold stored, logged; simpl.
  rewrite inserts_app, connectDb_inserts, connectDb_keeps_users.
  repeat split.
Qed.

Import Samples.

(** A record with the email exists, the lookup throws: the route answers
    with [Failed to register user], not with [User already registered]. *)
Lemma POST_duplicate_lookup_throws :
  find (has_email ann_email) (users (fresh_process [ann])) = Some ann /\
  fst (POST lookup_fails (credentials ann_email (js "hunter22"))
            (fresh_process [ann])) = Ok failed /\
  payload failed <> ErrorPayload (js "User already registered").
Proof. repeat split. vm_compute. discriminate. Qed.

Lemma POST_checks_before_insert_witness :
  (exists resp,
      fst (POST no_faults (credentials ann_email (js "hunter22"))
                (fresh_process [ann])) = Ok resp /\
      status resp = 400%Z /\ resp = already_registered) /\
  find (has_email bob_email) (users (fresh_process [ann])) = None.
Proof.
  split.
  - destruct (POST_checks_before_insert no_faults ann_email (js "hunter22")
                (fresh_process [ann]) eq_refl eq_refl) as [H _].
    destruct (H ann eq_refl) as (resp & Hr & Hs & _ & _ & Hm & _).
    exists resp. repeat split; auto.
  - destruct (POST_checks_before_insert no_faults bob_email (js "hunter22")
                (fresh_process [ann]) eq_refl eq_refl) as [_ H].
    apply H. left. vm_compute. discriminate.
Defined.

(** No record has the email, the insert throws: the route answers 400 and
    the collection is unchanged. *)
Lemma POST_insert_throws :
  find (has_email bob_email) (users (fresh_process [ann])) = None /\
  fst (POST insert_fails (credentials bob_email (js "hunter22"))
            (fresh_process [ann])) = Ok failed /\
  status failed = 400%Z /\
  users (snd (POST insert_fails (credentials bob_email (js "hunter22"))
                   (fresh_process [ann]))) = [ann].
Proof. repeat split. Qed.

Lemma POST_registers_witness :
  fst (POST no_faults (credentials bob_email (js "hunter22"))
            (fresh_process [ann])) = Ok registered /\
  users (snd (POST no_faults (credentials bob_email (js "hunter22"))
                   (fresh_process [ann])))
    = [ann; mkUser bob_email (js "hunter22")].
Proof.
  destruct (POST_registers no_faults bob_email (js "hunter22")
              (fresh_process [ann]) eq_refl eq_refl eq_refl eq_refl
              eq_refl eq_refl) as (Hr & _ & Hu & _).
  split; [exact Hr | exact Hu].
Defined.

End RegisterRouteFacts.

(** ** The upload-auth route *)

Module UploadAuthFacts.
Import UploadAuth Samples.

(** X22.  The route hands the private key to the signer and to nothing
    else: two environments with the same public key in which the signer
    returns the same get the same response. *)
Lemma GET_key_only_through_signer (signer : Signer) (env env' : ProcessEnv) :
  NEXT_PUBLIC_PUBLIC_KEY env = NEXT_PUBLIC_PUBLIC_KEY env' ->
  signer (IMAGEKIT_PRIVATE_KEY env) (NEXT_PUBLIC_PUBLIC_KEY env)
    = signer (IMAGEKIT_PRIVATE_KEY env') (NEXT_PUBLIC_PUBLIC_KEY env') ->
  GET signer env = GET signer env'.
Proof.
  intros Hpub Hsig. unfold GET. now rewrite Hsig, Hpub.
Qed.

(** When the signer throws, the body is the fixed error message and the
    status 500. *)
Lemma GET_signer_throws (signer : Signer) (env : ProcessEnv) (err : Thrown) :
  signer (IMAGEKIT_PRIVATE_KEY env) (NEXT_PUBLIC_PUBLIC_KEY env) = Throw err ->
  GET signer env =
  mkResponse (ErrorBody (js "Authentication for Image kit failed")) 500.
Proof. intros H. unfold GET. now rewrite H. Qed.

Lemma startsWith_spec (s k : jsstring) :
  startsWith s k = true <-> exists rest, s = k ++ rest.
Proof.
  revert s; induction k as [|x k IH]; intros s; simpl.
  - split; [intros _; now exists s | intros _; reflexivity].
  - destruct s as [|y s].
    + split; [discriminate | intros (rest & H); discriminate].
    + rewrite andb_true_iff, N.eqb_eq, IH. split.
      * intros [-> (rest & ->)]. now exists rest.
      * intros (rest & H). injection H as -> ->. split; [reflexivity | eauto].
Qed.

(** [includes] decides whether [k] is a substring of [s]. *)
Lemma includes_spec (s k : jsstring) :
  includes s k = true <-> exists pre rest, s = pre ++ k ++ rest.
Proof.
  induction s as [|c s IH]; simpl.
  - rewrite orb_false_r, startsWith_spec. split.
    + intros (rest & H). now exists [], rest.
    + intros (pre & rest & H). destruct pre; simpl in H; [eauto |].
      discriminate.
  - rewrite orb_true_iff, IH, startsWith_spec. split.
    + intros [(rest & H) | (pre & rest & ->)].
      * now exists [], rest.
      * now exists (c :: pre), rest.
    + intros (pre & rest & H). destruct pre as [|x pre]; simpl in H.
      * left. eauto.
      * injection H as <- ->. right. eauto.
Qed.




End UploadAuthFacts.

(** ** More on the validation rules *)

Module RulesFacts.
Import Rules JSFacts.

(** [r] matches at the start of [s] when some prefix of [s] is in its
    language. *)
Lemma matches_at_start_spec (r : regex) (s : jsstring) :
  matches_at_start r s = true <->
  exists m rest, s = m ++ rest /\ matches r m.
Proof.
  revert r; induction s as [|c s IH]; intros r; simpl.
  - rewrite orb_false_r, nullable_spec. split.
    + intros H. now exists [], [].
    + intros (m & rest & E & H). symmetry in E.
      apply app_eq_nil in E as [-> _]. assumption.
  - rewrite orb_true_iff, nullable_spec, IH. split.
    + intros [H | (m & rest & -> & H)].
      * now exists [], (c :: s).
      * exists (c :: m), rest. split; [reflexivity | now apply deriv_spec].
    + intros (m & rest & E & H). destruct m as [|x m]; simpl in E.
      * now left.
      * injection E as <- ->. right. exists m, rest.
        split; [reflexivity | now apply deriv_spec].
Qed.

(** [/r/.test(s)] holds when some substring of [s] is in the language. *)
Lemma test_spec (r : regex) (s : jsstring) :
  test r s = true <->
  exists pre m rest, s = pre ++ m ++ rest /\ matches r m.
Proof.
  induction s as [|c s IH]; simpl.
  - rewrite !orb_false_r, nullable_spec. split.
    + intros H. now exists [], [], [].
    + intros (pre & m & rest & E & H). symmetry in E.
      apply app_eq_nil in E as [_ E]. apply app_eq_nil in E as [-> _].
      assumption.
  - rewrite orb_true_iff, IH.
    change (nullable r || matches_at_start (deriv c r) s)
      with (matches_at_start r (c :: s)).
    rewrite matches_at_start_spec. split.
    + intros [(m & rest & E & H) | (pre & m & rest & -> & H)].
      * now exists [], m, rest.
      * now exists (c :: pre), m, rest.
    + intros (pre & m & rest & E & H). destruct pre as [|x pre]; simpl in E.
      * left. now exists m, rest.
      * injection E as <- ->. right. now exists pre, m, rest.
Qed.

Lemma matches_anywhere (p : char16 -> bool) (m : jsstring) :
  matches (anywhere p) m <->
  exists m' c, m = m' ++ [c] /\ forallb any_char m' = true /\ p c = true.
Proof.
  unfold anywhere. rewrite matches_cat. split.
  - intros (m' & l & -> & H1 & H2).
    apply matches_star_cls in H1. apply matches_cls in H2 as (c & -> & Hc).
    now exists m', c.
  - intros (m' & c & -> & H1 & Hc). exists m', [c].
    split; [reflexivity |].
    split; [now apply matches_star_cls | now constructor].
Qed.

(** The lookahead tests [(?=.*[x])] of the password rule hold exactly when
    some code unit of the value is in the class [x], line terminators or
    not. *)
Lemma lookahead_exists (p : char16 -> bool) (s : jsstring) :
  test_lookahead (anywhere p) s = existsb p s.
Proof.
  apply eq_true_iff_eq. unfold test_lookahead.
  rewrite test_spec, existsb_exists. split.
  - intros (pre & m & rest & -> & H).
    apply matches_anywhere in H as (m' & c & -> & _ & Hc).
    exists c. split; [| assumption].
    rewrite !in_app_iff. simpl. tauto.
  - intros (c & Hin & Hc). apply in_split in Hin as (pre & rest & ->).
    exists pre, [c], rest. split; [reflexivity |].
    apply matches_anywhere. now exists [], c.
Qed.

Lemma special_not_alnum (c : char16) :
  is_special c = true -> is_alnum c = false.
Proof.
  unfold is_special, special_chars. intros H.
  apply existsb_exists in H as (x & Hin & Hx).
  apply N.eqb_eq in Hx. subst x.
  cbv in Hin.
  repeat (destruct Hin as [<- | Hin]; [reflexivity |]).
  contradiction.
Qed.

Lemma existsb_impl {A} (p q : A -> bool) (l : list A) :
  (forall x, p x = true -> q x = true) ->
  existsb p l = true -> existsb q l = true.
Proof.
  intros Hpq H. apply existsb_exists in H as (x & Hin & Hx).
  apply existsb_exists. exists x. auto.
Qed.

Lemma trimStart_id (s : jsstring) :
  forallb (fun c => negb (is_space c)) s = true -> trimStart s = s.
Proof.
  destruct s as [|c s]; simpl; [reflexivity |].
  intros H. apply andb_true_iff in H as [Hc _].
  now destruct (is_space c).
Qed.

(** [trim] leaves a string without white space as it is. *)
Lemma trim_id (s : jsstring) :
  forallb (fun c => negb (is_space c)) s = true -> trim s = s.
Proof.
  intros H. unfold trim, trimEnd. rewrite (trimStart_id s H).
  rewrite trimStart_id; [apply rev_involutive |].
  apply forallb_forall. intros x Hx. apply in_rev in Hx.
  revert x Hx. now apply forallb_forall.
Qed.

Lemma atom_not_space (l : jsstring) :
  forallb email_atom l = true ->
  forallb (fun c => negb (is_space c)) l = true.
Proof.
  intros H. apply forallb_forall. intros x Hx.
  apply (proj1 (forallb_forall _ _) H) in Hx.
  unfold email_atom in Hx. apply negb_true_iff in Hx.
  apply orb_false_iff in Hx as [Hs _]. now rewrite Hs.
Qed.

Lemma email_shape_no_space (s : jsstring) :
  email_shape s -> forallb (fun c => negb (is_space c)) s = true.
Proof.
  intros (a & b & c & -> & _ & _ & _ & Fa & Fb & Fc).
  apply atom_not_space in Fa, Fb, Fc.
  rewrite forallb_app. simpl. rewrite forallb_app. simpl.
  now rewrite Fa, Fb, Fc.
Qed.

Lemma email_shape_nonempty (s : jsstring) : email_shape s -> s <> [].
Proof.
  intros (a & b & c & -> & Ha & _). destruct a; [congruence | discriminate].
Qed.

End RulesFacts.

(** ** More on the register page *)

Module RegisterPageMore.
Import Browser Rules RegisterPage JSFacts RulesFacts Wire.

(** The checks of the password rule, one by one. *)
Lemma password_rule_checks (fd : FormData) (value : jsstring) :
  validateField fd F_password value = None <->
  truthy value = true /\
  Nat.ltb (length value) 8 = false /\
  Nat.ltb 128 (length value) = false /\
  existsb is_lower value = true /\
  existsb is_upper value = true /\
  existsb is_digit value = true /\
  existsb is_special value = true.
Proof.
  unfold validateField. rewrite !lookahead_exists.
  destruct (truthy value), (Nat.ltb (length value) 8),
           (Nat.ltb 128 (length value)), (existsb is_lower value),
           (existsb is_upper value), (existsb is_digit value),
           (existsb is_special value); simpl; intuition discriminate.
Qed.

Lemma confirm_rule_checks (fd : FormData) (value : jsstring) :
  validateField fd F_confirmPassword value = None <->
  truthy value = true /\ value = password fd.
Proof.
  unfold validateField.
  destruct (truthy value); simpl; [| intuition discriminate].
  destruct (str_eqb_spec value (password fd)); simpl; intuition discriminate.
Qed.

(** Every message of [validateField] is a non-empty string, so the test
    [if (error)] of [validateForm] drops none. *)
Lemma validateField_message (fd : FormData) (k : Field) (value m : jsstring) :
  validateField fd k value = Some m -> truthy m = true.
Proof.
  unfold validateField. destruct k;
    repeat match goal with
           | |- context [if ?b then _ else _] => destruct b
           end;
    intros H; inversion H; reflexivity.
Qed.

(** The entries [validateForm] records for one key. *)
Lemma validateForm_entries (fd : FormData) :
  fst (validateForm fd) =
  flat_map (fun key =>
              match validateField fd key (get_field fd key) with
              | Some error => [(OfField key, error)]
              | None => []
              end) form_keys.
Proof.
  unfold validateForm. cbv beta iota zeta delta [fst].
  apply flat_map_ext. intros key.
  destruct (validateField fd key (get_field fd key)) as [m|] eqn:E;
    [| reflexivity].
  now rewrite (validateField_message _ _ _ E).
Qed.

Lemma validateForm_true (fd : FormData) :
  snd (validateForm fd) = true <->
  validateField fd F_email (email fd) = None /\
  validateField fd F_password (password fd) = None /\
  validateField fd F_confirmPassword (confirmPassword fd) = None.
Proof.
  assert (E : snd (validateForm fd)
              = Nat.eqb (length (fst (validateForm fd))) 0) by reflexivity.
  rewrite E, validateForm_entries. unfold form_keys.
  cbn [flat_map get_field].
  destruct (validateField fd F_email (email fd)),
           (validateField fd F_password (password fd)),
           (validateField fd F_confirmPassword (confirmPassword fd));
    simpl; intuition discriminate.
Qed.

(** X1.  The password rule of the register form reports no error exactly
    when the value has 8 to 128 code units and contains a lowercase letter,
    an uppercase letter, a digit and one of the listed special
    characters. *)
Theorem password_rule_accepts (fd : FormData) (value : jsstring) :
  validateField fd F_password value = None <->
  8 <= length value <= 128 /\
  existsb is_lower value = true /\
  existsb is_upper value = true /\
  existsb is_digit value = true /\
  existsb is_special value = true.
Proof.
  rewrite password_rule_checks, !Nat.ltb_ge. split.
  - intros (_ & H8 & H128 & H). split; [lia | exact H].
  - intros ([H8 H128] & H). repeat split; try lia; try apply H.
    destruct value; [simpl in H8; lia | reflexivity].
Qed.

(** X2.  A password the register form accepts meets five of the six
    strength criteria, and the sixth when it has 12 code units or more: the
    meter shows [Very Strong] below 12 code units and the fallback
    [Very Weak] in red from 12 on. *)
Theorem accepted_password_strength (fd : FormData) (value : jsstring) :
  validateField fd F_password value = None ->
  let r := calculatePasswordStrength value in
  (length value < 12 ->
   score r = 5 /\ label r = js "Very Strong" /\ color r = js "bg-emerald-500") /\
  (12 <= length value ->
   score r = 6 /\ label r = js "Very Weak" /\ color r = js "bg-red-500").
Proof.
  intros H. apply password_rule_checks in H
    as (_ & H8 & _ & Hl & Hu & Hd & Hs).
  apply Nat.ltb_ge in H8.
  assert (Hn : existsb (fun c => negb (is_alnum c)) value = true).
  { apply existsb_impl with (p := is_special); [| assumption].
    intros x Hx. now rewrite (special_not_alnum x Hx). }
  unfold calculatePasswordStrength, criteria.
  rewrite !test_cls, Hl, Hu, Hd, Hn.
  replace (Nat.leb 8 (length value)) with true
    by (symmetry; apply Nat.leb_le; exact H8).
  split; intros H12.
  - replace (Nat.leb 12 (length value)) with false
      by (symmetry; apply Nat.leb_gt; exact H12).
    repeat split.
  - replace (Nat.leb 12 (length value)) with true
      by (symmetry; apply Nat.leb_le; exact H12).
    repeat split.
Qed.

Lemma accepted_password_strength_witness :
  label (calculatePasswordStrength Samples2.good_password) = js "Very Strong" /\
  label (calculatePasswordStrength Samples2.long_password) = js "Very Weak".
Proof.
  split.
  - destruct (accepted_password_strength Samples2.good_form
                Samples2.good_password eq_refl) as [H _].
    assert (Hl : length Samples2.good_password < 12) by (simpl; lia).
    exact (proj1 (proj2 (H Hl))).
  - destruct (accepted_password_strength Samples2.good_form
                Samples2.long_password eq_refl) as [_ H].
    assert (Hl : 12 <= length Samples2.long_password) by (simpl; lia).
    exact (proj1 (proj2 (H Hl))).
Defined.

Lemma some_class (c : char16) :
  is_lower c || is_upper c || is_digit c || negb (is_alnum c) = true.
Proof.
  unfold is_alnum. destruct (is_lower c), (is_upper c), (is_digit c);
    reflexivity.
Qed.

(** X3.  The strength score is 0 for the empty password only; for a
    non-empty password the meter reads [Very Weak] exactly when all six
    criteria are met. *)
Theorem strength_very_weak (value : jsstring) :
  (score (calculatePasswordStrength value) = 0 <-> value = []) /\
  (value <> [] ->
   (label (calculatePasswordStrength value) = js "Very Weak" <->
    forallb (fun b => b) (criteria value) = true)).
Proof.
  destruct value as [|c rest].
  - split; [split; reflexivity | congruence].
  - assert (H : test (Cls is_lower) (c :: rest)
                || test (Cls is_upper) (c :: rest)
                || test (Cls is_digit) (c :: rest)
                || test (Cls (fun c => negb (is_alnum c))) (c :: rest) = true).
    { rewrite !test_cls. simpl. pose proof (some_class c) as Hc.
      destruct (is_lower c), (is_upper c), (is_digit c),
               (negb (is_alnum c)); simpl in *;
        rewrite ?orb_true_r; try reflexivity; discriminate. }
    unfold calculatePasswordStrength, criteria.
    revert H.
    generalize (Nat.leb 8 (length (c :: rest)))
               (Nat.leb 12 (length (c :: rest)))
               (test (Cls is_lower) (c :: rest))
               (test (Cls is_upper) (c :: rest))
               (test (Cls is_digit) (c :: rest))
               (test (Cls (fun c => negb (is_alnum c))) (c :: rest)).
    intros b1 b2 b3 b4 b5 b6 H.
    destruct b1, b2, b3, b4, b5, b6; try discriminate H; cbv;
      (split; [split; discriminate | intros _; split; congruence]).
Qed.

Lemma strength_very_weak_witness :
  label (calculatePasswordStrength Samples2.long_password) = js "Very Weak".
Proof.
  destruct (strength_very_weak Samples2.long_password) as [_ H].
  apply H; [vm_compute; discriminate | reflexivity].
Defined.

(** X4.  The email rule accepts exactly the strings that read
    [local @ domain . tld], three non-empty parts without white space or
    [@], and have at most 254 code units; the first check of the rule
    ([Email is required]) never decides, and trimming leaves an accepted
    email as it is. *)
Theorem email_rule_shape (fd : FormData) (value : jsstring) :
  (validateField fd F_email value = None <->
   email_shape value /\ length value <= 254) /\
  (validateField fd F_email value = None -> trim value = value).
Proof.
  rewrite RegisterPageFacts.email_rule_checks, test_anchored_spec, email_re_shape, Nat.ltb_ge.
  split.
  - split; [tauto |].
    intros [Hs Hl]. repeat split; try assumption.
    rewrite (trim_id value (email_shape_no_space Hs)).
    apply truthy_nonempty. now apply email_shape_nonempty.
  - intros (_ & Hs & _). apply trim_id. now apply email_shape_no_space.
Qed.

Lemma email_rule_shape_witness :
  email_shape Samples.ann_email /\ trim Samples.ann_email = Samples.ann_email.
Proof.
  destruct (email_rule_shape Samples2.good_form Samples.ann_email)
    as [Hiff Htrim].
  split.
  - apply Hiff. reflexivity.
  - apply Htrim. reflexivity.
Defined.

(** X5.  [validateForm] succeeds exactly when the email and the password
    pass their rules and the confirmation equals the password, and it
    records an error under a field exactly when the rule of that field
    reports one. *)
Theorem validateForm_reports (fd : FormData) :
  (snd (validateForm fd) = true <->
   validateField fd F_email (email fd) = None /\
   validateField fd F_password (password fd) = None /\
   confirmPassword fd = password fd) /\
  (forall k m,
      In (OfField k, m) (fst (validateForm fd)) <->
      validateField fd k (get_field fd k) = Some m).
Proof.
  split.
  - rewrite validateForm_true, confirm_rule_checks. split.
    + tauto.
    + intros (He & Hp & Hc). repeat split; try assumption.
      rewrite Hc. now apply password_rule_checks in Hp as (Ht & _).
  - intros k m. rewrite validateForm_entries. unfold form_keys.
    cbn [flat_map get_field]. rewrite !in_app_iff.
    destruct k; cbn [get_field];
      destruct (validateField fd F_email (email fd)),
               (validateField fd F_password (password fd)),
               (validateField fd F_confirmPassword (confirmPassword fd));
      simpl; split; intros H;
      repeat match goal with
             | H : _ \/ _ |- _ => destruct H
             | H : False |- _ => contradiction
             | H : (_, _) = (_, _) |- _ => inversion H; subst; clear H
             | H : Some _ = Some _ |- _ => inversion H; subst; clear H
             end;
      try discriminate; auto 6.
Qed.

(** What a validating form tells about its fields. *)
Lemma valid_form_fields (fd : FormData) :
  snd (validateForm fd) = true ->
  trim (email fd) = email fd /\
  truthy (email fd) = true /\
  test_anchored email_re (email fd) = true /\
  truthy (password fd) = true /\
  8 <= length (password fd) /\
  confirmPassword fd = password fd.
Proof.
  intros H. apply validateForm_true in H as (He & Hp & Hc).
  apply RegisterPageFacts.email_rule_checks in He as (Ht & Hm & _).
  apply password_rule_checks in Hp as (Htp & H8 & _).
  apply confirm_rule_checks in Hc as (_ & Hc).
  apply Nat.ltb_ge in H8.
  pose proof (proj1 (test_anchored_spec _ _) Hm) as Hs.
  apply email_re_shape in Hs.
  rewrite (trim_id _ (email_shape_no_space Hs)) in *.
  repeat split; assumption.
Qed.

(** X6.  When the form validates, [handleSubmit] sends one request: a POST
    to [/api/auth/register] whose body holds the lowercased email (trimming
    changes nothing on a valid email) and the password as entered.  It
    navigates exactly when the response is [ok] and its body parses, and it
    always ends with [isLoading] off. *)
Theorem register_submit_sends
    (toLowerCase : jsstring -> jsstring) (st : State)
    (net : outcome (FetchResponse ApiResponse)) :
  snd (validateForm (formData st)) = true ->
  let events := snd (handleSubmit toLowerCase st net) in
  filter is_fetch events =
    [Fetch (js "/api/auth/register") (js "POST")
           [ (js "email", toLowerCase (email (formData st)));
             (js "password", password (formData st)) ]] /\
  (existsb is_push events = true <->
   exists r data, net = Ok r /\ resp_json r = Ok data /\ resp_ok r = true) /\
  isLoading (fst (handleSubmit toLowerCase st net)) = false.
Proof.
  intros Hv. pose proof (valid_form_fields _ Hv) as (Htrim & _).
  unfold handleSubmit.
  destruct (validateForm (formData st)) as [newErrors valid].
  simpl in Hv. subst valid. cbv beta iota zeta. simpl negb. cbv iota.
  rewrite Htrim.
  destruct net as [r|e]; simpl.
  - destruct (resp_json r) as [data|e] eqn:Hj; simpl.
    + destruct (resp_ok r) eqn:Hok; simpl.
      * repeat split; eauto.
      * repeat split; try discriminate.
        intros (r' & d & E & _ & Hok'). injection E as <-. congruence.
    + repeat split; try discriminate.
      intros (r' & d & E & Hj' & _). injection E as <-. congruence.
  - repeat split; try discriminate.
    intros (r' & d & E & _). discriminate.
Qed.

Lemma register_submit_sends_witness :
  existsb is_push
    (snd (handleSubmit Samples.ascii_lower Samples.matching_form
                       (Ok Samples.created))) = true.
Proof.
  destruct (register_submit_sends Samples.ascii_lower Samples.matching_form
              (Ok Samples.created) eq_refl) as (_ & H & _).
  apply H. exists Samples.created, (mkApiResponse None).
  repeat split.
Defined.

(** X7.  Credentials that pass the register form also pass the login
    form. *)
Theorem register_valid_then_login_valid (fd : FormData) :
  snd (validateForm fd) = true ->
  snd (LoginPage.validateForm
         (LoginPage.mkFormData (email fd) (password fd))) = true.
Proof.
  intros Hv. apply valid_form_fields in Hv
    as (Htrim & Hte & Hm & Htp & H8 & _).
  unfold LoginPage.validateForm, LoginPage.form_keys. simpl.
  rewrite Htrim, Hte, Hm, Htp. simpl.
  replace (Nat.ltb (length (password fd)) 6) with false
    by (symmetry; apply Nat.ltb_ge; lia).
  reflexivity.
Qed.

Lemma register_valid_then_login_valid_witness :
  snd (LoginPage.validateForm
         (LoginPage.mkFormData Samples.ann_email Samples2.good_password))
    = true.
Proof.
  apply (register_valid_then_login_valid Samples2.good_form). reflexivity.
Defined.

End RegisterPageMore.

(** ** The forms between submissions *)

Module RegisterFormFacts.
Import Browser RegisterForm Wire.

Lemma set_key_nonempty (k : RegisterPage.ErrorKey) (v : option jsstring)
    (o : ErrorsObject) : set_key k v o <> [].
Proof.
  destruct o as [|[k' v'] rest]; simpl; [discriminate |].
  destruct (key_eqb k' k); discriminate.
Qed.

(** No handler of the form removes a key from [errors]. *)
Lemma handleInputChange_keeps_errors (field : RegisterPage.Field)
    (value : jsstring) (v : View) :
  errors v <> [] -> errors (handleInputChange field value v) <> [].
Proof.
  intros H. unfold handleInputChange. simpl.
  destruct (truthy_opt (get_key RegisterPage.E_submit (errors v)));
    [apply set_key_nonempty |].
  destruct (is_touched (touched v) field);
    [apply set_key_nonempty | assumption].
Qed.

Lemma handleBlur_sets_key (field : RegisterPage.Field) (v : View) :
  errors (handleBlur field v) <> [].
Proof. apply set_key_nonempty. Qed.

Lemma errors_disable (v : View) : errors v <> [] -> disabled v = true.
Proof.
  intros H. unfold disabled, isFormValid.
  destruct (errors v); [congruence |]. simpl. apply orb_true_r.
Qed.

(** With a key in [errors] the button is dead: whatever the user does next
    causes no event and leaves a key in [errors]. *)
Lemma stuck (toLowerCase : jsstring -> jsstring) (actions : list Action) :
  forall v,
    errors v <> [] ->
    snd (run toLowerCase actions v) = [] /\
    errors (fst (run toLowerCase actions v)) <> [].
Proof.
  induction actions as [|a rest IH]; intros v H; simpl.
  - split; [reflexivity | assumption].
  - assert (Hs : snd (step toLowerCase a v) = [] /\
                 errors (fst (step toLowerCase a v)) <> []).
    { destruct a as [field value|field|net]; simpl.
      - split; [reflexivity | now apply handleInputChange_keeps_errors].
      - split; [reflexivity | apply handleBlur_sets_key].
      - unfold click. rewrite (errors_disable v H). now split. }
    destruct (step toLowerCase a v) as [v1 events1].
    simpl in Hs. destruct Hs as [-> H1].
    specialize (IH v1 H1).
    destruct (run toLowerCase rest v1) as [v2 events2].
    simpl in IH. destruct IH as [-> H2]. now split.
Qed.

(** X8.  Once any field of the register form has lost focus, [errors] holds
    a key (with value [undefined] when the field is valid), so the submit
    button is disabled, and no later sequence of input changes, blurs and
    clicks sends a request or navigates. *)
Theorem register_blur_blocks_submit
    (toLowerCase : jsstring -> jsstring) (v : View)
    (field : RegisterPage.Field) (actions : list Action) :
  isFormValid (handleBlur field v) = false /\
  snd (run toLowerCase actions (handleBlur field v)) = [] /\
  disabled (fst (run toLowerCase actions (handleBlur field v))) = true.
Proof.
  pose proof (handleBlur_sets_key field v) as H.
  pose proof (stuck toLowerCase actions _ H) as [Hev Herr].
  repeat split.
  - unfold isFormValid. destruct (errors (handleBlur field v));
      [congruence | reflexivity].
  - assumption.
  - now apply errors_disable.
Qed.

(** Typed without leaving a field, the same form is submitted. *)
Lemma register_no_blur_submits :
  existsb is_fetch
    (snd (run Samples.ascii_lower Samples2.no_blur_session initial)) = true /\
  snd (run Samples.ascii_lower Samples2.blur_session initial) = [].
Proof. split; vm_compute; reflexivity. Qed.

Lemma object_of_nonempty (e : RegisterPage.ValidationErrors) :
  e <> [] -> object_of e <> [].
Proof. destruct e; [congruence | discriminate]. Qed.

Lemma response_errors_nonempty (st : Z) (data : RegisterPage.ApiResponse) :
  RegisterPage.response_errors st data <> [].
Proof.
  unfold RegisterPage.response_errors.
  destruct (Z.eqb st 409); [discriminate |].
  destruct (Z.eqb st 400); [discriminate |].
  destruct (Z.leb 500 st); discriminate.
Qed.

(** X9.  A click that sent the request and did not navigate (the server
    refused, the answer did not parse, the network failed) leaves an error
    in [errors]: from then on the button is disabled and no sequence of
    input changes, blurs and clicks sends another request. *)
Theorem register_failed_attempt_blocks_retry
    (toLowerCase : jsstring -> jsstring) (v : View)
    (net : outcome (FetchResponse RegisterPage.ApiResponse))
    (actions : list Action) :
  existsb is_fetch (snd (click toLowerCase v net)) = true ->
  existsb is_push (snd (click toLowerCase v net)) = false ->
  disabled (fst (click toLowerCase v net)) = true /\
  snd (run toLowerCase actions (fst (click toLowerCase v net))) = [].
Proof.
  intros Hf Hp.
  assert (H : errors (fst (click toLowerCase v net)) <> []).
  { revert Hf Hp. unfold click.
    destruct (disabled v); [discriminate |].
    unfold RegisterPage.handleSubmit. cbn [RegisterPage.formData].
    destruct (RegisterPage.validateForm (formData v)) as [newErrors valid].
    destruct valid; simpl; [| discriminate].
    destruct net as [r|e]; simpl; [| discriminate].
    destruct (resp_json r) as [data|e] eqn:Hj;
      rewrite ?Hj; simpl; [| discriminate].
    destruct (resp_ok r); simpl; [discriminate |].
    intros _ _. apply object_of_nonempty, response_errors_nonempty. }
  split; [now apply errors_disable |].
  now apply (stuck toLowerCase actions).
Qed.

Lemma register_failed_attempt_blocks_retry_witness :
  disabled (fst (click Samples.ascii_lower Samples2.filled_view
                       (Ok Samples2.refused_registration))) = true /\
  snd (run Samples.ascii_lower Samples2.no_blur_session
           (fst (click Samples.ascii_lower Samples2.filled_view
                       (Ok Samples2.refused_registration)))) = [].
Proof.
  apply (register_failed_attempt_blocks_retry Samples.ascii_lower
           Samples2.filled_view (Ok Samples2.refused_registration)
           Samples2.no_blur_session); reflexivity.
Defined.

End RegisterFormFacts.

Module LoginFormFacts.
Import Browser LoginForm Wire.

Lemma login_set_key_nonempty (k : LoginPage.ErrorKey) (v : option jsstring)
    (o : ErrorsObject) : set_key k v o <> [].
Proof.
  destruct o as [|[k' v'] rest]; simpl; [discriminate |].
  destruct (key_eqb k' k); discriminate.
Qed.

Lemma login_handleInputChange_keeps_errors (field : LoginPage.Field)
    (value : jsstring) (v : View) :
  errors v <> [] -> errors (handleInputChange field value v) <> [].
Proof.
  intros H. unfold handleInputChange. simpl.
  destruct (truthy_opt (get_key LoginPage.E_submit (errors v)));
    [apply login_set_key_nonempty |].
  destruct (is_touched (touched v) field);
    [apply login_set_key_nonempty | assumption].
Qed.

Lemma login_errors_disable (v : View) : errors v <> [] -> disabled v = true.
Proof.
  intros H. unfold disabled, isFormValid.
  destruct (errors v); [congruence |]. simpl. apply orb_true_r.
Qed.

Lemma login_stuck (toLowerCase : jsstring -> jsstring) (actions : list Action) :
  forall v,
    errors v <> [] ->
    snd (run toLowerCase actions v) = [] /\
    errors (fst (run toLowerCase actions v)) <> [].
Proof.
  induction actions as [|a rest IH]; intros v H; simpl.
  - split; [reflexivity | assumption].
  - assert (Hs : snd (step toLowerCase a v) = [] /\
                 errors (fst (step toLowerCase a v)) <> []).
    { destruct a as [field value|field|auth]; simpl.
      - split; [reflexivity | now apply login_handleInputChange_keeps_errors].
      - split; [reflexivity | apply login_set_key_nonempty].
      - unfold click. rewrite (login_errors_disable v H). now split. }
    destruct (step toLowerCase a v) as [v1 events1].
    simpl in Hs. destruct Hs as [-> H1].
    specialize (IH v1 H1).
    destruct (run toLowerCase rest v1) as [v2 events2].
    simpl in IH. destruct IH as [-> H2]. now split.
Qed.

(** X10.  On the login page too, a field that lost focus leaves a key in
    [errors]: the Sign In button is disabled and no sequence of input
    changes, blurs and clicks on it calls [signIn] or navigates.  Only
    [handleGoogleSignIn] empties [errors] again, when its [signIn]
    returns. *)
Theorem login_blur_blocks_submit
    (toLowerCase : jsstring -> jsstring) (v : View)
    (field : LoginPage.Field) (actions : list Action) :
  isFormValid (handleBlur field v) = false /\
  snd (run toLowerCase actions (handleBlur field v)) = [] /\
  disabled (fst (run toLowerCase actions (handleBlur field v))) = true /\
  errors (fst (handleGoogleSignIn
                 (fst (run toLowerCase actions (handleBlur field v)))
                 (Ok tt))) = [].
Proof.
  assert (H : errors (handleBlur field v) <> []) by apply login_set_key_nonempty.
  pose proof (login_stuck toLowerCase actions _ H) as [Hev Herr].
  repeat split.
  - unfold isFormValid. destruct (errors (handleBlur field v));
      [congruence | reflexivity].
  - assumption.
  - now apply login_errors_disable.
Qed.

Lemma signin_errors_nonempty (e : jsstring) : LoginPage.signin_errors e <> [].
Proof.
  unfold LoginPage.signin_errors.
  repeat match goal with
         | |- context [if ?b then _ else _] => destruct b
         end; discriminate.
Qed.

(** X11.  A click on Sign In that called [signIn] and did not navigate
    (wrong password, any other error, a rejected call) leaves an error in
    [errors]: the button is disabled from then on, and no sequence of input
    changes, blurs and clicks calls [signIn] again. *)
Theorem login_failed_attempt_blocks_retry
    (toLowerCase : jsstring -> jsstring) (v : View)
    (auth : outcome (option LoginPage.SignInResponse))
    (actions : list Action) :
  existsb is_signin (snd (click toLowerCase v auth)) = true ->
  existsb is_push (snd (click toLowerCase v auth)) = false ->
  disabled (fst (click toLowerCase v auth)) = true /\
  snd (run toLowerCase actions (fst (click toLowerCase v auth))) = [].
Proof.
  intros Hf Hp.
  assert (H : errors (fst (click toLowerCase v auth)) <> []).
  { revert Hf Hp. unfold click.
    destruct (disabled v); [discriminate |].
    unfold LoginPage.handleSubmit. cbn [LoginPage.formData].
    destruct (LoginPage.validateForm (formData v)) as [newErrors valid].
    destruct valid; simpl; [| discriminate].
    destruct auth as [result|e]; simpl; [| discriminate].
    destruct (truthy_opt (LoginPage.result_error result)); simpl.
    - intros _ _. destruct (LoginPage.signin_errors _) eqn:E;
        [now apply signin_errors_nonempty in E | discriminate].
    - destruct (LoginPage.result_ok result); simpl; discriminate. }
  split; [now apply login_errors_disable |].
  now apply (login_stuck toLowerCase actions).
Qed.

Lemma login_failed_attempt_blocks_retry_witness :
  disabled (fst (click Samples.ascii_lower Samples2.filled_login
                       Samples2.wrong_password)) = true /\
  snd (run Samples.ascii_lower
           [Change LoginPage.F_password (js "secret2");
            Click Samples.signed_in]
           (fst (click Samples.ascii_lower Samples2.filled_login
                       Samples2.wrong_password))) = [].
Proof.
  apply (login_failed_attempt_blocks_retry Samples.ascii_lower
           Samples2.filled_login Samples2.wrong_password); reflexivity.
Defined.

End LoginFormFacts.

(** ** More on the cached connection and the register route *)

Module ServerMore.
Import Server Db RegisterRoute JSFacts DbFacts RegisterRouteFacts.

Lemma connectDb_empty_cache_witness :
  fst (connectDb (Samples.fresh_process [Samples.ann])) = Ok None /\
  cached (snd (connectDb (Samples.fresh_process [Samples.ann])))
    = initial_cache.
Proof.
  destruct (connectDb_empty_cache (Samples.fresh_process [Samples.ann])
              eq_refl) as (H1 & H2 & _).
  split; [exact H1 | exact H2].
Defined.

(** X13.  Once a call of [connectDb] has returned a connection, the next
    call returns the same connection and changes nothing: no connection
    attempt, no change of the cache. *)
Theorem connectDb_handle_is_kept (w : World) (c : Connection) :
  fst (connectDb w) = Ok (Some c) ->
  connectDb (snd (connectDb w)) = (Ok (Some c), snd (connectDb w)).
Proof.
  rewrite (connectDb_cases w).
  destruct (conn (cached w)) as [c0|] eqn:Hc.
  - simpl. intros H. injection H as ->.
    rewrite connectDb_cases, Hc. reflexivity.
  - destruct (promise (cached w)) as [[c0|e]|]; simpl; intros H;
      try discriminate.
    injection H as ->. reflexivity.
Qed.

Lemma connectDb_handle_is_kept_witness :
  connectDb (snd (connectDb Samples2.connected_process)) =
  (Ok (Some MongooseConnection), snd (connectDb Samples2.connected_process)).
Proof.
  apply (connectDb_handle_is_kept Samples2.connected_process). reflexivity.
Defined.

(** X14.  After a call of [connectDb] that threw, the cache is empty: the
    next call does not throw again, it starts a new connection attempt and
    returns [null]. *)
Theorem connectDb_after_failure (w : World) (e : Thrown) :
  fst (connectDb w) = Throw e ->
  let w1 := snd (connectDb w) in
  cached w1 = initial_cache /\
  fst (connectDb w1) = Ok None /\
  effects (snd (connectDb w1))
    = effects w ++ [MongooseConnect (MONGODB_URI w)].
Proof.
  rewrite (connectDb_cases w).
  destruct (conn (cached w)) as [c0|]; [discriminate |].
  destruct (promise (cached w)) as [[c0|e0]|]; simpl; try discriminate.
  intros _. repeat split.
Qed.

Lemma connectDb_after_failure_witness :
  fst (connectDb (snd (connectDb Samples.rejecting_process))) = Ok None.
Proof.
  destruct (connectDb_after_failure Samples.rejecting_process
              (e := Samples.econnrefused) eq_refl) as (_ & H & _).
  exact H.
Defined.

(** X15.  A request whose body is malformed or lacks a non-empty email or
    password is answered 400 before the database is touched: no connection
    attempt, no lookup, no insert, whatever the state of the database. *)
Theorem POST_without_credentials
    (f : Faults) (request : outcome Body) (w : World) :
  (forall e p, request = credentials e p -> truthy e && truthy p = false) ->
  snd (POST f request w) = w /\
  (fst (POST f request w) = Ok failed \/
   fst (POST f request w) = Ok missing_fields).
Proof.
  intros H. destruct request as [b|err].
  - assert (Hb : truthy_opt (body_email b) && truthy_opt (body_password b)
                 = false).
    { destruct b as [[e|] [p|]]; simpl; rewrite ?andb_false_r;
        try reflexivity.
      now apply H. }
    rewrite (POST_missing f b w Hb). auto.
  - rewrite POST_malformed. auto.
Qed.

Lemma POST_without_credentials_witness :
  snd (POST no_faults (credentials Samples.ann_email [])
            (Samples.fresh_process [])) = Samples.fresh_process [].
Proof.
  apply (@POST_without_credentials no_faults
           (credentials Samples.ann_email []) (Samples.fresh_process [])).
  intros e p H. injection H as <- <-. reflexivity.
Defined.

(** What a request with credentials does to the collection. *)
Lemma POST_users (f : Faults) (e p : jsstring) (w : World) :
  truthy e = true -> truthy p = true ->
  (fst (POST f (credentials e p) w) = Ok registered /\
   find (has_email e) (users w) = None /\
   users (snd (POST f (credentials e p) w)) = users w ++ [mkUser e p]) \/
  (fst (POST f (credentials e p) w) <> Ok registered /\
   users (snd (POST f (credentials e p) w)) = users w).
Proof.
  intros He Hp. rewrite (POST_credentials f e p w He Hp). cbv zeta.
  pose proof (connectDb_keeps_users w) as Hu.
  destruct (rejects (cached w));
    [right; split; [discriminate | exact Hu] |].
  destruct (findOne_throws f);
    [right; split; [discriminate | exact Hu] |].
  destruct (find (has_email e) (users w));
    [right; split; [discriminate | exact Hu] |].
  destruct (create_throws f);
    [right; split; [discriminate | exact Hu] |].
  left. simpl. now rewrite Hu.
Qed.

(** A request either carries credentials or is answered without a change
    of the world. *)
Lemma POST_request_cases (f : Faults) (request : outcome Body) (w : World) :
  (exists e p, request = credentials e p /\
               truthy e = true /\ truthy p = true) \/
  (snd (POST f request w) = w /\ fst (POST f request w) <> Ok registered).
Proof.
  destruct request as [[[e|] [p|]]|err].
  - destruct (truthy e) eqn:He; [destruct (truthy p) eqn:Hp |].
    + left. now exists e, p.
    + right. rewrite POST_missing by (simpl; now rewrite He, Hp).
      split; [reflexivity | discriminate].
    + right. rewrite POST_missing by (simpl; now rewrite He).
      split; [reflexivity | discriminate].
  - right. rewrite POST_missing by (simpl; apply andb_false_r).
    split; [reflexivity | discriminate].
  - right. rewrite POST_missing by reflexivity.
    split; [reflexivity | discriminate].
  - right. rewrite POST_missing by reflexivity.
    split; [reflexivity | discriminate].
  - right. rewrite POST_malformed. split; [reflexivity | discriminate].
Qed.

(** X17.  The route never alters or removes a stored record, and it answers
    201 exactly when it appended the record of the request: either the
    collection is unchanged and the answer is not the 201 one, or the
    answer is the 201 one and the collection grew by the one record with
    the email and password of the body. *)
Theorem POST_appends_iff_registered
    (f : Faults) (request : outcome Body) (w : World) :
  (users (snd (POST f request w)) = users w /\
   fst (POST f request w) <> Ok registered) \/
  (exists e p,
      request = credentials e p /\
      fst (POST f request w) = Ok registered /\
      users (snd (POST f request w)) = users w ++ [mkUser e p]).
Proof.
  destruct (POST_request_cases f request w)
    as [(e & p & -> & He & Hp) | [Hw Hr]].
  - destruct (POST_users f e p w He Hp) as [(Hr & _ & Hu) | (Hr & Hu)].
    + right. now exists e, p.
    + left. now split.
  - left. rewrite Hw. now split.
Qed.

Lemma find_snoc (e : jsstring) (us : list UserDoc) (u : UserDoc) :
  find (has_email e) us = None -> email u = e ->
  find (has_email e) (us ++ [u]) = Some u.
Proof.
  intros Hf Hu. induction us as [|x us IH]; simpl in *.
  - unfold has_email. now rewrite Hu, str_eqb_refl.
  - destruct (has_email e x); [discriminate | now apply IH].
Qed.

Lemma connectDb_no_reject_after (w : World) :
  rejects (cached w) = None -> rejects (cached (snd (connectDb w))) = None.
Proof.
  rewrite connectDb_cases. unfold rejects.
  destruct (conn (cached w)) eqn:Hc; simpl; [now rewrite Hc |].
  destruct (promise (cached w)) as [[c|e]|]; simpl; congruence.
Qed.

(** The first part of a request with credentials, step by step. *)
Lemma POST_to_lookup_credentials (f : Faults) (e p : jsstring) (w : World) :
  truthy e = true -> truthy p = true ->
  Overlap.POST_to_lookup f (credentials e p) w =
  let w1 := snd (connectDb w) in
  match rejects (cached w) with
  | Some _ => (Ok (inl failed), w1)
  | None =>
      match findOne_throws f with
      | Some _ => (Ok (inl failed), logged [FindOne e] w1)
      | None =>
          match find (has_email e) (users w) with
          | Some _ => (Ok (inl already_registered), logged [FindOne e] w1)
          | None => (Ok (inr (mkUser e p)), logged [FindOne e] w1)
          end
      end
  end.
Proof.
  intros He Hp.
  destruct e as [|x e]; [discriminate |].
  destruct p as [|y p]; [discriminate |].
  destruct w as [uri [[c|] [[c'|err]|]] us effs];
    destruct f as [[ft|] [ct|]];
    unfold Overlap.POST_to_lookup, credentials, User_findOne, connectDb,
           try_catch, bind, await, ret, throw, emit, logged; cbn;
    rewrite <- ?app_assoc; cbn;
    try reflexivity;
    destruct (find (has_email (x :: e)) us); reflexivity.
Qed.

Lemma POST_from_create_cases (f : Faults) (doc : UserDoc) (w : World) :
  Overlap.POST_from_create f doc w =
  match create_throws f with
  | Some _ => (Ok failed, logged [Create doc] w)
  | None => (Ok registered, stored doc (logged [Create doc] w))
  end.
Proof.
  destruct w as [uri c us effs]; destruct f as [ft [ct|]]; reflexivity.
Qed.

(** Cutting [POST] at the lookup changes nothing for a request that runs
    alone. *)
Lemma POST_in_two_parts_eq (f : Faults) (request : outcome Body) (w : World) :
  Overlap.POST_in_two_parts f request w = POST f request w.
Proof.
  unfold Overlap.POST_in_two_parts.
  destruct (POST_request_cases f request w)
    as [(e & p & -> & He & Hp) | _].
  - rewrite (POST_to_lookup_credentials f e p w He Hp),
            (POST_credentials f e p w He Hp). cbv zeta.
    destruct (rejects (cached w)); [reflexivity |].
    destruct (findOne_throws f); [reflexivity |].
    destruct (find (has_email e) (users w)); [reflexivity |].
    cbn [Overlap.resume]. rewrite POST_from_create_cases.
    destruct (create_throws f); unfold logged, stored; cbn;
      rewrite <- ?app_assoc; reflexivity.
  - destruct request as [[[[|x e]|] [[|y p]|]]|err]; try reflexivity.
    assert (He : truthy (x :: e) = true) by reflexivity.
    assert (Hp : truthy (y :: p) = true) by reflexivity.
    change (Ok (mkBody (Some (x :: e)) (Some (y :: p))))
      with (credentials (x :: e) (y :: p)).
    rewrite (POST_to_lookup_credentials f _ _ w He Hp),
            (POST_credentials f _ _ w He Hp). cbv zeta.
    destruct (rejects (cached w)); [reflexivity |].
    destruct (findOne_throws f); [reflexivity |].
    destruct (find (has_email (x :: e)) (users w)); [reflexivity |].
    cbn [Overlap.resume]. rewrite POST_from_create_cases.
    destruct (create_throws f); unfold logged, stored; cbn;
      rewrite <- ?app_assoc; reflexivity.
Qed.

(** X16.  The duplicate check of the route is not atomic.  Cut at the
    [await] of the lookup, [POST] is the same function; but when two
    requests for one email that no record has overlap, so that both
    lookups are answered before either insert runs, and nothing throws,
    both are answered 201 and the collection ends with two records of that
    email. *)
Theorem POST_check_is_not_atomic
    (f1 f2 : Faults) (e p1 p2 : jsstring) (w : World) :
  truthy e = true -> truthy p1 = true -> truthy p2 = true ->
  find (has_email e) (users w) = None ->
  rejects (cached w) = None ->
  findOne_throws f1 = None -> create_throws f1 = None ->
  findOne_throws f2 = None -> create_throws f2 = None ->
  let run := Overlap.overlapped f1 (credentials e p1) f2 (credentials e p2) w in
  (forall f request w0,
      Overlap.POST_in_two_parts f request w0 = POST f request w0) /\
  fst run = (Ok registered, Ok registered) /\
  users (snd run) = users w ++ [mkUser e p1; mkUser e p2] /\
  ~ NoDup (map email (users (snd run))).
Proof.
  intros He Hp1 Hp2 Hfind Hrej Hf1 Hc1 Hf2 Hc2. cbv zeta.
  split; [exact POST_in_two_parts_eq |].
  unfold Overlap.overlapped.
  rewrite (POST_to_lookup_credentials f1 e p1 w He Hp1), Hrej, Hf1, Hfind.
  cbv beta iota zeta.
  set (w1 := logged [FindOne e] (snd (connectDb w))).
  assert (Hu1 : users w1 = users w) by apply connectDb_keeps_users.
  assert (Hr1 : rejects (cached w1) = None)
    by (apply (connectDb_no_reject_after w Hrej)).
  rewrite (POST_to_lookup_credentials f2 e p2 w1 He Hp2), Hr1, Hf2, Hu1, Hfind.
  cbv beta iota zeta. cbn [Overlap.resume].
  rewrite POST_from_create_cases, Hc1. cbv beta iota zeta.
  rewrite POST_from_create_cases, Hc2. cbv beta iota zeta.
  assert (Hu : users (stored (mkUser e p2)
                        (logged [Create (mkUser e p2)]
                           (stored (mkUser e p1)
                              (logged [Create (mkUser e p1)]
                                 (logged [FindOne e]
                                    (snd (connectDb w1)))))))
               = users w ++ [mkUser e p1; mkUser e p2]).
  { cbn [stored logged users]. rewrite connectDb_keeps_users, Hu1.
    now rewrite <- app_assoc. }
  cbn [fst snd]. split; [reflexivity |]. split; [exact Hu |].
  rewrite Hu, map_app. intros Hn. apply NoDup_app_remove_l in Hn.
  simpl in Hn. inversion Hn as [|? ? Hin _]; subst. apply Hin. now left.
Qed.

Lemma POST_check_is_not_atomic_witness :
  fst (Overlap.overlapped no_faults
         (credentials Samples.bob_email (js "hunter22")) no_faults
         (credentials Samples.bob_email (js "other-pw"))
         (Samples.fresh_process [Samples.ann]))
    = (Ok registered, Ok registered) /\
  users (snd (Overlap.overlapped no_faults
                (credentials Samples.bob_email (js "hunter22")) no_faults
                (credentials Samples.bob_email (js "other-pw"))
                (Samples.fresh_process [Samples.ann])))
    = [Samples.ann; mkUser Samples.bob_email (js "hunter22");
       mkUser Samples.bob_email (js "other-pw")].
Proof.
  destruct (@POST_check_is_not_atomic no_faults no_faults Samples.bob_email
              (js "hunter22") (js "other-pw")
              (Samples.fresh_process [Samples.ann])
              eq_refl eq_refl eq_refl eq_refl eq_refl
              eq_refl eq_refl eq_refl eq_refl) as (_ & Ha & Hu & _).
  split; [exact Ha | exact Hu].
Defined.

(** X18.  After a registration that was answered 201, a lookup of the
    email finds the record with the password as sent, and a second request
    with that email, whose lookup does not throw, is answered
    [User already registered] and leaves the collection as it is. *)
Theorem POST_same_email_twice
    (f f' : Faults) (e p p' : jsstring) (w : World) :
  truthy e = true -> truthy p = true -> truthy p' = true ->
  fst (POST f (credentials e p) w) = Ok registered ->
  findOne_throws f' = None ->
  let w1 := snd (POST f (credentials e p) w) in
  find (has_email e) (users w1) = Some (mkUser e p) /\
  fst (POST f' (credentials e p') w1) = Ok already_registered /\
  users (snd (POST f' (credentials e p') w1)) = users w1.
Proof.
  intros He Hp Hp' Hreg Hf'. cbv zeta.
  assert (Hfind : find (has_email e)
                       (users (snd (POST f (credentials e p) w)))
                  = Some (mkUser e p)).
  { destruct (POST_users f e p w He Hp) as [(_ & Hf & ->) | (Hr & _)];
      [| congruence].
    now apply find_snoc. }
  assert (Hrej : rejects (cached (snd (POST f (credentials e p) w))) = None).
  { revert Hreg. rewrite (POST_credentials f e p w He Hp). cbv zeta.
    destruct (rejects (cached w)) eqn:Hr; [discriminate |].
    pose proof (connectDb_no_reject_after w Hr) as Hr1.
    destruct (findOne_throws f); [discriminate |].
    destruct (find (has_email e) (users w)); [discriminate |].
    destruct (create_throws f); [discriminate |].
    intros _. exact Hr1. }
  split; [exact Hfind |].
  rewrite (POST_credentials f' e p' _ He Hp'). cbv zeta.
  rewrite Hrej, Hf', Hfind. simpl.
  split; [reflexivity | apply connectDb_keeps_users].
Qed.

Lemma POST_same_email_twice_witness :
  fst (POST no_faults (credentials Samples.bob_email (js "other-pw"))
            (snd (POST no_faults
                       (credentials Samples.bob_email (js "hunter22"))
                       (Samples.fresh_process [Samples.ann]))))
    = Ok already_registered.
Proof.
  destruct (@POST_same_email_twice no_faults no_faults Samples.bob_email
              (js "hunter22") (js "other-pw")
              (Samples.fresh_process [Samples.ann])
              eq_refl eq_refl eq_refl eq_refl eq_refl) as (_ & H & _).
  exact H.
Defined.

(** X19.  In a process whose cache is empty, every request with a
    non-empty email and password starts exactly one new connection attempt
    and leaves the cache empty: the route reconnects on every such
    request. *)
Theorem POST_reconnects (f : Faults) (e p : jsstring) (w : World) :
  truthy e = true -> truthy p = true ->
  cached w = initial_cache ->
  let w' := snd (POST f (credentials e p) w) in
  cached w' = initial_cache /\
  connect_attempts (effects w') = connect_attempts (effects w) + 1.
Proof.
  intros He Hp Hc. rewrite (POST_credentials f e p w He Hp). cbv zeta.
  rewrite (connectDb_cases w), Hc. cbn [initial_cache conn promise snd rejects].
  assert (Hn : forall l, connect_attempts l = 0 ->
                 connect_attempts
                   ((effects w ++ [MongooseConnect (MONGODB_URI w)]) ++ l)
                 = connect_attempts (effects w) + 1).
  { intros l Hl. rewrite !connect_attempts_app, Hl.
    change (connect_attempts [MongooseConnect (MONGODB_URI w)]) with 1. lia. }
  destruct (findOne_throws f); [| destruct (find (has_email e) (users w));
                                  [| destruct (create_throws f)]];
    cbn [snd logged stored cached effects]; split;
      try reflexivity; now apply Hn.
Qed.

Lemma POST_reconnects_witness :
  connect_attempts
    (effects (snd (POST no_faults
                        (credentials Samples.bob_email (js "hunter22"))
                        (Samples.fresh_process [Samples.ann])))) = 1.
Proof.
  destruct (@POST_reconnects no_faults Samples.bob_email (js "hunter22")
              (Samples.fresh_process [Samples.ann])
              eq_refl eq_refl eq_refl) as [_ H].
  exact H.
Defined.

End ServerMore.

(** ** The register pages against the register route *)

Module WireFacts.
Import Server Browser RegisterRoute Wire JSFacts RegisterRouteFacts.

(** The answers of the route as the pages see them: only the 201 answer is
    [ok], and none carries a [message] besides it. *)
Lemma route_answers (f : Faults) (request : outcome Body) (w : World) :
  (succeeds f request w = true /\ fst (POST f request w) = Ok registered) \/
  (succeeds f request w = false /\
   exists resp,
     fst (POST f request w) = Ok resp /\
     status resp = 400%Z /\ message_of (payload resp) = None).
Proof.
  destruct request as [b|err].
  - destruct (truthy_opt (body_email b) && truthy_opt (body_password b))
      eqn:Hb.
    + destruct b as [[e|] [p|]]; simpl in Hb; rewrite ?andb_false_r in Hb;
        try discriminate.
      apply andb_true_iff in Hb as [He Hp].
      rewrite (@POST_credentials f e p w He Hp :
                 POST f (Ok (mkBody (Some e) (Some p))) w = _).
      simpl succeeds. rewrite He, Hp. cbv zeta.
      destruct (Db.rejects (cached w)); [right; simpl; eauto 6 |].
      destruct (findOne_throws f); [right; simpl; eauto 6 |].
      destruct (find (has_email e) (users w)); [right; simpl; eauto 6 |].
      destruct (create_throws f); [right; simpl; eauto 6 |].
      left. now split.
    + right. rewrite (POST_missing f b w Hb). split.
      * destruct b as [[e|] [p|]]; simpl in *; try reflexivity.
        now rewrite Hb.
      * exists missing_fields. repeat split.
  - right. split; [reflexivity |]. exists failed. repeat split.
Qed.

Lemma register_sent_request (toLowerCase : jsstring -> jsstring)
    (st : RegisterPage.State) :
  snd (RegisterPage.validateForm (RegisterPage.formData st)) = true ->
  sent_request
    (snd (RegisterPage.handleSubmit toLowerCase st (Throw NonError))) =
  Some (credentials
          (toLowerCase (RegisterPage.email (RegisterPage.formData st)))
          (RegisterPage.password (RegisterPage.formData st))).
Proof.
  intros Hv.
  pose proof (RegisterPageMore.valid_form_fields _ Hv) as (Htrim & _).
  unfold RegisterPage.handleSubmit.
  destruct (RegisterPage.validateForm (RegisterPage.formData st))
    as [newErrors valid].
  simpl in Hv. subst valid. cbv beta iota zeta. simpl negb. cbv iota.
  rewrite Htrim. reflexivity.
Qed.

(** X20.  The register page against the route.  When the form validates,
    the route receives the lowercased email and the password; the page
    navigates to the login page exactly when the registration went
    through, and for every refusal of the route (a taken email included)
    it shows [Invalid registration data] under [submit]: the route answers
    400 with an [error] field, so the 409 branch and [data.message] of the
    page are never used. *)
Theorem register_page_meets_route
    (toLowerCase : jsstring -> jsstring) (st : RegisterPage.State)
    (f : Faults) (w : World) :
  snd (RegisterPage.validateForm (RegisterPage.formData st)) = true ->
  let request :=
    credentials (toLowerCase (RegisterPage.email (RegisterPage.formData st)))
                (RegisterPage.password (RegisterPage.formData st)) in
  let round := register_round toLowerCase st f w in
  snd round = snd (POST f request w) /\
  existsb is_push (snd (fst round)) = succeeds f request w /\
  RegisterPage.errors (fst (fst round)) =
    if succeeds f request w then []
    else [(RegisterPage.E_submit, js "Invalid registration data")].
Proof.
  intros Hv. cbv zeta. unfold register_round.
  rewrite (register_sent_request toLowerCase st Hv).
  set (request := credentials _ _).
  pose proof (route_answers f request w) as Hr.
  destruct (POST f request w) as [r w'] eqn:HP. cbn [fst] in Hr.
  split; [reflexivity |]. cbn [fst snd].
  unfold RegisterPage.handleSubmit.
  destruct (RegisterPage.validateForm (RegisterPage.formData st))
    as [newErrors valid].
  simpl in Hv. subst valid. cbv beta iota zeta. simpl negb. cbv iota.
  destruct Hr as [[-> ->] | [-> (resp & -> & Hs & Hm)]].
  - split; reflexivity.
  - unfold answer. cbn [resp_json resp_status]. unfold resp_ok.
    cbn [resp_status]. rewrite Hs, Hm. split; reflexivity.
Qed.

Lemma register_page_meets_route_witness :
  RegisterPage.errors
    (fst (fst (register_round Samples.ascii_lower Samples.matching_form
                              no_faults
                              (Samples.fresh_process [Samples.ann]))))
    = [(RegisterPage.E_submit, js "Invalid registration data")].
Proof.
  destruct (@register_page_meets_route Samples.ascii_lower
              Samples.matching_form no_faults
              (Samples.fresh_process [Samples.ann]) eq_refl) as (_ & _ & H).
  exact H.
Defined.

(** X21.  The plain register page against the route.  With equal password
    fields the page sends the email and password as typed, without any
    check of its own, and navigates to [/login] exactly when the
    registration went through; every refusal of the route ends in the
    alert [REgisteration failed]. *)
Theorem plain_register_meets_route
    (st : PlainRegister.State) (f : Faults) (w : World) :
  PlainRegister.password st = PlainRegister.confirmPassword st ->
  let request :=
    credentials (PlainRegister.email st) (PlainRegister.password st) in
  let round := plain_register_round st f w in
  snd round = snd (POST f request w) /\
  fst round =
    Fetch (js "/api/auth/register") (js "POST")
          [ (js "email", PlainRegister.email st);
            (js "password", PlainRegister.password st) ]
    :: (if succeeds f request w
        then [RouterPush (js "/login")]
        else [AlertError (ErrorObject (js "REgisteration failed"))]).
Proof.
  intros Heq. cbv zeta. unfold plain_register_round.
  assert (Hsent : sent_request (PlainRegister.handleSubmit st (Throw NonError))
                  = Some (credentials (PlainRegister.email st)
                                      (PlainRegister.password st))).
  { unfold PlainRegister.handleSubmit.
    rewrite <- Heq, str_eqb_refl. reflexivity. }
  rewrite Hsent.
  set (request := credentials _ _).
  pose proof (route_answers f request w) as Hr.
  destruct (POST f request w) as [r w'] eqn:HP. cbn [fst] in Hr.
  split; [reflexivity |]. cbn [fst snd].
  unfold PlainRegister.handleSubmit. rewrite <- Heq, str_eqb_refl.
  cbv beta iota zeta. simpl negb. cbv iota.
  destruct Hr as [[-> ->] | [-> (resp & -> & Hs & _)]].
  - reflexivity.
  - unfold answer. cbn [resp_json resp_status]. unfold resp_ok.
    cbn [resp_status]. rewrite Hs. reflexivity.
Qed.

Lemma plain_register_meets_route_witness :
  fst (plain_register_round Samples.matching_plain_form no_faults
                            (Samples.fresh_process [])) =
  [ Fetch (js "/api/auth/register") (js "POST")
          [ (js "email", Samples.ann_email); (js "password", js "secret") ];
    RouterPush (js "/login") ].
Proof.
  destruct (@plain_register_meets_route Samples.matching_plain_form
              no_faults (Samples.fresh_process []) eq_refl) as [_ H].
  exact H.
Defined.

End WireFacts.

(** ** Witnesses for facts stated earlier *)

Module MoreWitnesses.
Import Browser.

Lemma GET_key_only_through_signer_witness :
  UploadAuth.GET Samples.sample_signer
    (UploadAuth.mkEnv (Some Samples.private_key) (Some Samples.public_key)) =
  UploadAuth.GET Samples.sample_signer
    (UploadAuth.mkEnv (Some (js "another_k3y")) (Some Samples.public_key)).
Proof.
  apply UploadAuthFacts.GET_key_only_through_signer; reflexivity.
Defined.

Lemma login_invalid_form_no_call_witness :
  snd (LoginPage.handleSubmit Samples.ascii_lower
         (LoginPage.mkState (LoginPage.mkFormData Samples.ann_email (js "abc"))
                            [] (LoginPage.mkTouched false false) false)
         Samples.signed_in) = [].
Proof.
  apply SubmitFacts.login_invalid_form_no_call. reflexivity.
Defined.

End MoreWitnesses.

(** ** More on the forms *)

Module FormMore.
Import Browser Rules JSFacts RulesFacts.

Lemma login_email_checks (value : jsstring) :
  LoginPage.validateField LoginPage.F_email value = None <->
  truthy (trim value) = true /\ test_anchored email_re value = true.
Proof.
  unfold LoginPage.validateField.
  destruct (truthy (trim value)), (test_anchored email_re value); simpl;
    intuition discriminate.
Qed.

Lemma login_password_checks (value : jsstring) :
  LoginPage.validateField LoginPage.F_password value = None <->
  truthy value = true /\ Nat.ltb (length value) 6 = false.
Proof.
  unfold LoginPage.validateField.
  destruct (truthy value), (Nat.ltb (length value) 6); simpl;
    intuition discriminate.
Qed.

Lemma login_message (k : LoginPage.Field) (value m : jsstring) :
  LoginPage.validateField k value = Some m -> truthy m = true.
Proof.
  unfold LoginPage.validateField. destruct k;
    repeat match goal with
           | |- context [if ?b then _ else _] => destruct b
           end;
    intros H; inversion H; reflexivity.
Qed.

(** X25.  The login form validates exactly when the email reads
    [local @ domain . tld] (no white space, one [@]) and the password has
    at least 6 code units; there is no upper limit on either. *)
Theorem login_validateForm_iff (fd : LoginPage.FormData) :
  snd (LoginPage.validateForm fd) = true <->
  email_shape (LoginPage.email fd) /\ 6 <= length (LoginPage.password fd).
Proof.
  unfold LoginPage.validateForm, LoginPage.form_keys.
  cbv beta iota zeta delta [snd]. cbn [flat_map LoginPage.get_field].
  destruct (LoginPage.validateField LoginPage.F_email (LoginPage.email fd))
    as [m1|] eqn:E1;
    [rewrite (login_message _ _ E1) |];
    (destruct (LoginPage.validateField LoginPage.F_password
                                       (LoginPage.password fd))
       as [m2|] eqn:E2;
     [rewrite (login_message _ _ E2) |]); simpl.
  - split; [discriminate |]. intros [Hs H6].
    assert (LoginPage.validateField LoginPage.F_password
                                    (LoginPage.password fd) = None).
    { apply login_password_checks. split.
      - destruct (LoginPage.password fd); [simpl in H6; lia | reflexivity].
      - apply Nat.ltb_ge. exact H6. }
    congruence.
  - split; [discriminate |]. intros [Hs _].
    assert (LoginPage.validateField LoginPage.F_email (LoginPage.email fd)
            = None).
    { apply login_email_checks. split.
      - rewrite (trim_id _ (email_shape_no_space Hs)).
        apply truthy_nonempty. now apply email_shape_nonempty.
      - apply test_anchored_spec. now apply email_re_shape. }
    congruence.
  - split; [discriminate |]. intros [_ H6].
    assert (LoginPage.validateField LoginPage.F_password
                                    (LoginPage.password fd) = None).
    { apply login_password_checks. split.
      - destruct (LoginPage.password fd); [simpl in H6; lia | reflexivity].
      - apply Nat.ltb_ge. exact H6. }
    congruence.
  - split; [| reflexivity]. intros _.
    apply login_email_checks in E1 as (_ & Hm).
    apply login_password_checks in E2 as (_ & H6).
    split.
    + apply email_re_shape. now apply test_anchored_spec.
    + now apply Nat.ltb_ge.
Qed.

Import RegisterForm.

Lemma field_eqb_eq (a b : RegisterPage.Field) :
  field_eqb a b = true <-> a = b.
Proof. destruct a, b; simpl; split; congruence. Qed.

Lemma key_eqb_eq (a b : RegisterPage.ErrorKey) :
  key_eqb a b = true <-> a = b.
Proof.
  destruct a as [x|], b as [y|]; simpl; try (split; congruence).
  rewrite field_eqb_eq. split; congruence.
Qed.

(** Reading a key of [{ ...prev, [k]: v }]. *)
Lemma get_set_key (k k' : RegisterPage.ErrorKey) (v : option jsstring)
    (o : ErrorsObject) :
  get_key k' (set_key k v o) = if key_eqb k k' then v else get_key k' o.
Proof.
  induction o as [|[k0 v0] rest IH]; simpl.
  - reflexivity.
  - destruct (key_eqb k0 k) eqn:E0; simpl.
    + apply key_eqb_eq in E0. subst k0.
      destruct (key_eqb k k'); reflexivity.
    + rewrite IH. destruct (key_eqb k0 k') eqn:E1; [| reflexivity].
      apply key_eqb_eq in E1. subst k0.
      destruct (key_eqb k k') eqn:E2; [| reflexivity].
      apply key_eqb_eq in E2. subst k'.
      assert (key_eqb k k = true) by now apply key_eqb_eq.
      congruence.
Qed.

Lemma key_eqb_refl (k : RegisterPage.ErrorKey) : key_eqb k k = true.
Proof. now apply key_eqb_eq. Qed.

Lemma key_eqb_neq (a b : RegisterPage.ErrorKey) :
  a <> b -> key_eqb a b = false.
Proof.
  intros H. destruct (key_eqb a b) eqn:E; [| reflexivity].
  now apply key_eqb_eq in E.
Qed.

(** X26.  A change of one field of the register form never touches the
    error shown under another field: changing the password, for one,
    leaves the verdict on the confirmation as it was, matching or not. *)
Theorem change_revalidates_own_field_only
    (field k : RegisterPage.Field) (value : jsstring) (v : View) :
  k <> field ->
  get_key (RegisterPage.OfField k) (errors (handleInputChange field value v))
  = get_key (RegisterPage.OfField k) (errors v).
Proof.
  intros Hk. unfold handleInputChange. cbn [errors].
  assert (H1 : key_eqb (RegisterPage.OfField field) (RegisterPage.OfField k)
               = false) by (apply key_eqb_neq; congruence).
  destruct (truthy_opt (get_key RegisterPage.E_submit (errors v)));
    destruct (is_touched (touched v) field);
    rewrite ?get_set_key, ?H1; reflexivity.
Qed.

Lemma change_revalidates_own_field_only_witness :
  get_key (RegisterPage.OfField RegisterPage.F_confirmPassword)
    (errors (handleInputChange RegisterPage.F_password (js "Changed1!")
               (handleBlur RegisterPage.F_confirmPassword
                           Samples2.filled_view)))
  = None.
Proof.
  rewrite (@change_revalidates_own_field_only RegisterPage.F_password
             RegisterPage.F_confirmPassword (js "Changed1!")
             (handleBlur RegisterPage.F_confirmPassword Samples2.filled_view)).
  - reflexivity.
  - discriminate.
Defined.

(** X27.  [handleBlur] marks the field as touched and puts the verdict of
    its rule, [undefined] included, under the key of the field; the form
    data and the entries of all other keys stay as they were. *)
Theorem handleBlur_verdict (field : RegisterPage.Field) (v : View) :
  get_key (RegisterPage.OfField field) (errors (handleBlur field v))
  = RegisterPage.validateField (formData v) field
      (RegisterPage.get_field (formData v) field) /\
  (forall k, k <> RegisterPage.OfField field ->
             get_key k (errors (handleBlur field v)) = get_key k (errors v)) /\
  is_touched (touched (handleBlur field v)) field = true /\
  formData (handleBlur field v) = formData v.
Proof.
  unfold handleBlur. cbn [errors touched formData].
  split; [| split; [| split]].
  - now rewrite get_set_key, key_eqb_refl.
  - intros k Hk. rewrite get_set_key, key_eqb_neq; [reflexivity | congruence].
  - destruct field; reflexivity.
  - reflexivity.
Qed.

Lemma b2n_le (a b : bool) :
  (a = true -> b = true) -> RegisterPage.b2n a <= RegisterPage.b2n b.
Proof.
  destruct a, b; simpl; intros H; lia.
Qed.

Lemma existsb_app_l {A} (p : A -> bool) (l1 l2 : list A) :
  existsb p l1 = true -> existsb p (l1 ++ l2) = true.
Proof. intros H. rewrite existsb_app, H. reflexivity. Qed.

(** X28.  Typing further characters never lowers the strength score. *)
Theorem strength_score_monotone (password more : jsstring) :
  RegisterPage.score (RegisterPage.calculatePasswordStrength password)
  <= RegisterPage.score
       (RegisterPage.calculatePasswordStrength (password ++ more)).
Proof.
  unfold RegisterPage.calculatePasswordStrength, RegisterPage.criteria.
  cbn [RegisterPage.score fold_left]. rewrite !test_cls, length_app.
  assert (H1 : RegisterPage.b2n (Nat.leb 8 (length password))
               <= RegisterPage.b2n (Nat.leb 8 (length password + length more)))
    by (apply b2n_le; rewrite !Nat.leb_le; lia).
  assert (H2 : RegisterPage.b2n (Nat.leb 12 (length password))
               <= RegisterPage.b2n (Nat.leb 12 (length password + length more)))
    by (apply b2n_le; rewrite !Nat.leb_le; lia).
  pose proof (b2n_le (existsb_app_l is_lower password more)) as H3.
  pose proof (b2n_le (existsb_app_l is_upper password more)) as H4.
  pose proof (b2n_le (existsb_app_l is_digit password more)) as H5.
  pose proof (b2n_le (existsb_app_l (fun c => negb (is_alnum c))
                                    password more)) as H6.
  lia.
Qed.

End FormMore.
